(** * web3/_utils/request.py: the session caches

    A shallow embedding of [web3/_utils/request.py]: the [SessionCache]
    class (a bounded [OrderedDict] with first-in first-out eviction), the
    default endpoint lookup, and the module-level functions that provision
    synchronous and asynchronous HTTP sessions through the two module
    caches.

    Python objects that are only compared by identity (sessions) are object
    identifiers; a method that mutates [self] or a module global is a
    computation in a state-and-exception monad, in which the state survives
    a raised exception, as a mutated Python object does. *)

From stdpp Require Import base list strings gmap.
From Stdlib Require Import ZArith Lia.

Set Default Proof Using "Type".
Open Scope Z_scope.

(** ** Exceptions and the state-and-exception monad *)

(** The exceptions that can leave the functions of the module: the
    [KeyError] of a dictionary, with its argument, whatever a
    session's [close()] raises, identified by its text, and the
    [TypeError] of a call that gives an argument twice. *)
Inductive exn : Type :=
| KeyError (arg : string)
| SessionError (msg : string)
| TypeError (msg : string).

Inductive result (A : Type) : Type :=
| Ok (a : A)
| Raise (e : exn).

Arguments Ok {A} a.
Arguments Raise {A} e.

(** A computation over a mutable state [St]: it returns normally or
    raises, and in both cases leaves a state behind. *)
Definition M (St A : Type) : Type := St -> result A * St.

Definition ret {St A : Type} (a : A) : M St A :=
  fun s => (Ok a, s).

Definition raise {St A : Type} (e : exn) : M St A :=
  fun s => (Raise e, s).

Definition bind {St A B : Type} (m : M St A) (f : A -> M St B) : M St B :=
  fun s =>
    match m s with
    | (Ok a, s') => f a s'
    | (Raise e, s') => (Raise e, s')
    end.

Definition gets {St A : Type} (f : St -> A) : M St A :=
  fun s => (Ok (f s), s).

Definition modify {St : Type} (f : St -> St) : M St unit :=
  fun s => (Ok tt, f s).

Notation "'let*' x := m 'in' k" := (bind m (fun x => k))
  (at level 10, x name, m at level 100, k at level 200).
Notation "m ;; k" := (bind m (fun _ => k))
  (at level 100, k at level 200, right associativity).

(** ** Insertion-ordered dictionaries

    [collections.OrderedDict] and the built-in [dict] both keep their
    entries in insertion order; an entry list, oldest entry first. *)
Module OrderedDict.
Abbreviation t V := (list (string * V)) (only parsing).

Section Dict.
Context {V : Type}.

Definition keys (d : t V) : list string := d.*1.

Definition values (d : t V) : list V := d.*2.

(** [key in d] *)
Definition contains (key : string) (d : t V) : bool :=
  bool_decide (key ∈ keys d).

(** [d[key]]: the value, or [None] where Python raises [KeyError(key)]. *)
Fixpoint getitem (key : string) (d : t V) : option V :=
  match d with
  | [] => None
  | (k, v) :: rest => if decide (key = k) then Some v else getitem key rest
  end.

(** [d[key] = value]: an existing key keeps its position and takes the
    new value, a new key goes to the end. *)
Fixpoint setitem (key : string) (value : V) (d : t V) : t V :=
  match d with
  | [] => [(key, value)]
  | (k, v) :: rest =>
      if decide (key = k) then (k, value) :: rest
      else (k, v) :: setitem key value rest
  end.

(** [d.popitem(last=False)]: the oldest entry and the rest, or [None]
    where Python raises [KeyError('dictionary is empty')]. *)
Definition popitem_first (d : t V) : option ((string * V) * t V) :=
  match d with
  | [] => None
  | kv :: rest => Some (kv, rest)
  end.

(** The invariant of every dictionary: no key occurs twice. *)
Definition wf (d : t V) : Prop := NoDup (keys d).
End Dict.
End OrderedDict.

(** ** class SessionCache *)
Module SessionCache.
Section Cache.
Context {V : Type}.

Record t : Type := mk { _size : Z; _data : OrderedDict.t V }.

Definition set_data (d : OrderedDict.t V) (self : t) : t :=
  {| _size := _size self; _data := d |}.

(** [SessionCache(size)] *)
Definition __init__ (size : Z) : t :=
  {| _size := size; _data := [] |}.

(** The loop of [cache]:
<<
    while len(self._data) >= self._size:
        if evicted_items is None:
            evicted_items = {}
        k, v = self._data.popitem(last=False)
        evicted_items[k] = v
>>
    Every iteration pops one entry, so the loop is a recursion on the
    entries that remain, with [popitem(last=False)] as the match on them
    (see [evict_loop_popitem]). It returns the final [evicted_items] and
    leaves the entries not popped; [popitem] raises on the empty
    dictionary. *)
Fixpoint evict_loop (size : Z) (evicted_items : option (OrderedDict.t V))
    (data : OrderedDict.t V) : result (option (OrderedDict.t V)) * OrderedDict.t V :=
  if bool_decide (size ≤ Z.of_nat (length data)) then
    match data with
    | [] => (Raise (KeyError "dictionary is empty"), [])
    | (k, v) :: rest =>
        evict_loop size
          (Some (OrderedDict.setitem k v (default [] evicted_items))) rest
    end
  else (Ok evicted_items, data).

(** [self.cache(key, value)]: the evicted entries, or [None] when there
    are none. *)
Definition cache (key : string) (value : V) : M t (option (OrderedDict.t V)) :=
  let* present := gets (fun self => OrderedDict.contains key (_data self)) in
  let* evicted_items :=
    (if present : bool then ret None
     else fun self =>
       let '(r, d) := evict_loop (_size self) None (_data self) in
       (r, set_data d self)) in
  modify (fun self => set_data (OrderedDict.setitem key value (_data self)) self) ;;
  ret evicted_items.

(** [self.get_cache_entry(key)] *)
Definition get_cache_entry (key : string) : M t V :=
  fun self =>
    match OrderedDict.getitem key (_data self) with
    | Some v => (Ok v, self)
    | None => (Raise (KeyError key), self)
    end.

(** [item in self] *)
Definition __contains__ (item : string) (self : t) : bool :=
  OrderedDict.contains item (_data self).

(** [len(self)] *)
Definition __len__ (self : t) : Z :=
  Z.of_nat (length (_data self)).

(** The number of entries the loop of [cache] pops from [data] when the
    capacity is at least one: as many as bring the length below [size]. *)
Definition overflow (size : Z) (data : OrderedDict.t V) : nat :=
  Z.to_nat (Z.of_nat (length data) - size + 1).

(** A sequence of [cache] calls, in order; it stops at the first call
    that raises. *)
Fixpoint cache_all (items : list (string * V)) : M t (list (option (OrderedDict.t V))) :=
  match items with
  | [] => ret []
  | (key, value) :: rest =>
      let* r := cache key value in
      let* rs := cache_all rest in
      ret (r :: rs)
  end.
End Cache.
Arguments t : clear implicits.
End SessionCache.

(** ** lru.LRU

    [lru.LRU] is the third-party [lru-dict] extension type, not code of
    this repository. The model follows its documented behaviour: a bounded
    mapping whose entries are kept most recently used first; reading or
    writing a key makes it the most recent; writing a new key into a full
    mapping drops the least recent entry and hands it to the callback
    given at construction; a membership test does not touch the order. *)
Module LRU.
Section Lru.
Context {V : Type}.

Record t : Type := mk { size : Z; items : list (string * V) }.

Definition set_items (l : list (string * V)) (self : t) : t :=
  {| size := size self; items := l |}.

(** [lru.LRU(size, callback=...)] *)
Definition __init__ (size : Z) : t := {| size := size; items := [] |}.

Definition remove (key : string) (l : list (string * V)) : list (string * V) :=
  filter (fun kv => kv.1 ≠ key) l.

(** [key in self] *)
Definition __contains__ (key : string) (self : t) : bool :=
  bool_decide (key ∈ (items self).*1).

(** [self[key]] *)
Definition __getitem__ (key : string) : M t V :=
  fun self =>
    match OrderedDict.getitem key (items self) with
    | Some v => (Ok v, set_items ((key, v) :: remove key (items self)) self)
    | None => (Raise (KeyError key), self)
    end.

(** [self[key] = value]; returns the entry dropped for the callback, if
    any. *)
Definition __setitem__ (key : string) (value : V) : M t (option (string * V)) :=
  fun self =>
    if __contains__ key self then
      (Ok None, set_items ((key, value) :: remove key (items self)) self)
    else if bool_decide (0 < size self
                         ∧ size self < Z.of_nat (length (items self)) + 1) then
      (Ok (last (items self)),
       set_items ((key, value) :: removelast (items self)) self)
    else (Ok None, set_items ((key, value) :: items self) self).
End Lru.
Arguments t : clear implicits.
End LRU.

(** ** Module state and module-level functions *)

(** [URI] is a [NewType] of [str]. *)
Definition URI : Type := string.

(** [os.environ] *)
Abbreviation Environ := (gmap string string).

(** [get_default_http_endpoint()]: [URI(...)] is the identity at run
    time. *)
Definition get_default_http_endpoint (environ : Environ) : URI :=
  default "http://localhost:8545"%string
    (environ !! "WEB3_HTTP_PROVIDER_URI"%string).

(** A session object ([requests.Session] or [aiohttp.ClientSession]), by
    identity. *)
Definition Session : Type := nat.

(** The module globals, and what the module does to the world outside
    them: the sessions it has constructed and the [close()] calls it has
    made, oldest first. *)
Record World : Type := mkWorld {
  _session_cache : LRU.t Session;
  _async_session_cache : SessionCache.t Session;
  constructed : nat;
  closed : list Session;
}.

(** The state of a freshly imported module:
    [_session_cache = lru.LRU(8, callback=_remove_session)] and
    [_async_session_cache = SessionCache(size=20)]. *)
Definition module_init : World :=
  {| _session_cache := LRU.__init__ 8;
     _async_session_cache := SessionCache.__init__ 20;
     constructed := 0%nat;
     closed := [] |}.

Definition set_session_cache (c : LRU.t Session) (w : World) : World :=
  {| _session_cache := c;
     _async_session_cache := _async_session_cache w;
     constructed := constructed w;
     closed := closed w |}.

Definition set_async_session_cache (c : SessionCache.t Session) (w : World) : World :=
  {| _session_cache := _session_cache w;
     _async_session_cache := c;
     constructed := constructed w;
     closed := closed w |}.

(** Run a method of [_session_cache], respectively of
    [_async_session_cache], on the module state. *)
Definition on_session_cache {A : Type} (m : M (LRU.t Session) A) : M World A :=
  fun w => let '(r, c) := m (_session_cache w) in (r, set_session_cache c w).

Definition on_async_session_cache {A : Type}
    (m : M (SessionCache.t Session) A) : M World A :=
  fun w =>
    let '(r, c) := m (_async_session_cache w) in (r, set_async_session_cache c w).

(** [requests.Session()] and [ClientSession(raise_for_status=True)]: a new
    object, distinct from the ones constructed before. *)
Definition new_session : M World Session :=
  fun w =>
    (Ok (constructed w),
     {| _session_cache := _session_cache w;
        _async_session_cache := _async_session_cache w;
        constructed := S (constructed w);
        closed := closed w |}).

Definition log_close (session : Session) (w : World) : World :=
  {| _session_cache := _session_cache w;
     _async_session_cache := _async_session_cache w;
     constructed := constructed w;
     closed := closed w ++ [session] |}.

(** [w'] differs from [w] at most in the [close()] calls made. *)
Definition only_closes (w w' : World) : Prop :=
  _session_cache w' = _session_cache w
  /\ _async_session_cache w' = _async_session_cache w
  /\ constructed w' = constructed w.

Section Request.
(** [web3._utils.caching.generate_cache_key] is not part of the file;
    the functions below only call it. *)
Variable generate_cache_key : URI -> string.

(** What [await session.close()] raises, for each asynchronous session;
    [None] when it returns. *)
Variable close_raises : Session -> option exn.

(** [_remove_session(_key, session)]: [session.close()], the callback of
    [_session_cache]. *)
Definition _remove_session (_key : string) (session : Session) : M World unit :=
  modify (log_close session).

(** [_session_cache[cache_key] = session] with the callback the cache
    was constructed with. *)
Definition session_cache_setitem (cache_key : string) (session : Session)
    : M World unit :=
  let* dropped := on_session_cache (LRU.__setitem__ cache_key session) in
  match dropped with
  | Some (k, s) => _remove_session k s
  | None => ret tt
  end.

(** [cache_session(endpoint_uri, session)] *)
Definition cache_session (endpoint_uri : URI) (session : Session) : M World unit :=
  let cache_key := generate_cache_key endpoint_uri in
  session_cache_setitem cache_key session.

(** [get_session(endpoint_uri)] *)
Definition get_session (endpoint_uri : URI) : M World Session :=
  let cache_key := generate_cache_key endpoint_uri in
  let* present := gets (fun w => LRU.__contains__ cache_key (_session_cache w)) in
  (if present : bool then ret tt
   else let* session := new_session in
        session_cache_setitem cache_key session) ;;
  on_session_cache (LRU.__getitem__ cache_key).

(** [await session.close()] *)
Definition close (session : Session) : M World unit :=
  modify (log_close session) ;;
  match close_raises session with
  | Some e => raise e
  | None => ret tt
  end.

(** [for key, session in evicted_items.items(): await session.close()] *)
Fixpoint close_all (evicted_items : OrderedDict.t Session) : M World unit :=
  match evicted_items with
  | [] => ret tt
  | (_, session) :: rest => close session ;; close_all rest
  end.

(** [cache_async_session(endpoint_uri, session)]. One call runs at a
    time here, so [_async_session_cache_lock] is free on entry and the
    [with] statement releases it on every exit. *)
Definition cache_async_session (endpoint_uri : URI) (session : Session)
    : M World unit :=
  let cache_key := generate_cache_key endpoint_uri in
  let* evicted_items :=
    on_async_session_cache (SessionCache.cache cache_key session) in
  match evicted_items with
  | Some items => close_all items
  | None => ret tt
  end.

(** [get_async_session(endpoint_uri)] *)
Definition get_async_session (endpoint_uri : URI) : M World Session :=
  let cache_key := generate_cache_key endpoint_uri in
  let* present :=
    gets (fun w => SessionCache.__contains__ cache_key (_async_session_cache w)) in
  (if present : bool then ret tt
   else let* session := new_session in
        cache_async_session endpoint_uri session) ;;
  on_async_session_cache (SessionCache.get_cache_entry cache_key).


(** A cache within its capacity: the capacity is at least one, the
    entries are no more than the capacity, and no key occurs twice. A new
    [SessionCache(size)] with [size >= 1] is such a cache. *)
Definition within_capacity {V : Type} (self : SessionCache.t V) : Prop :=
  1 ≤ SessionCache._size self
  /\ SessionCache.__len__ self ≤ SessionCache._size self
  /\ OrderedDict.wf (SessionCache._data self).

(** A caller that awaits [get_async_session] for each endpoint in turn and
    goes on after an exception: the state it leaves. *)
Fixpoint get_async_sessions (endpoints : list URI) (w : World) : World :=
  match endpoints with
  | [] => w
  | endpoint_uri :: rest =>
      get_async_sessions rest (get_async_session endpoint_uri w).2
  end.

(** ** The request helpers *)

(** The values that the helpers hand on to the HTTP library: the default
    timeouts [10] and [ClientTimeout(10)], request bodies, and any other
    object, by identity. *)
Inductive value : Type :=
| PyInt (n : Z)
| PyClientTimeout (total : Z)
| PyBytes (b : string)
| PyObject (id : nat).

(** [**kwargs] *)
Abbreviation Kwargs := (gmap string value).

(** [kwargs.setdefault(key, default)], for the dictionary it leaves. *)
Definition setdefault (key : string) (dflt : value) (kwargs : Kwargs) : Kwargs :=
  match kwargs !! key with
  | Some _ => kwargs
  | None => <[key := dflt]> kwargs
  end.

(** One call [session.get(url, *args, **kwargs)] or
    [session.post(url, *args, **kwargs)]. *)
Record Call : Type := mkCall {
  call_session : Session;
  call_method : string;
  call_url : URI;
  call_args : list value;
  call_kwargs : Kwargs;
}.

(** A [requests.Response], by what [raise_for_status()] raises and by its
    [content]; an [aiohttp.ClientResponse], by what awaiting [read()] and
    [json()] gives. *)
Record Response : Type := mkResponse {
  raise_for_status : option exn;
  content : string;
}.

Record ClientResponse : Type := mkClientResponse {
  read : result string;
  json : result value;
}.

(** The module state together with the calls made on sessions so far,
    oldest first. *)
Record Net : Type := mkNet {
  world : World;
  calls : list Call;
}.

Definition on_world {A : Type} (m : M World A) : M Net A :=
  fun n => let '(r, w) := m (world n) in (r, mkNet w (calls n)).

(** What a call on a [requests.Session], respectively an awaited call on
    a [ClientSession], gives, after the calls made before it: the HTTP
    libraries and the network are outside the file. *)
Variable http : list Call -> Call -> result Response.
Variable aiohttp : list Call -> Call -> result ClientResponse.

Definition session_call (session : Session) (method : string) (url : URI)
    (args : list value) (kwargs : Kwargs) : M Net Response :=
  fun n =>
    let c := mkCall session method url args kwargs in
    (http (calls n) c, mkNet (world n) (calls n ++ [c])).


(** [get_response_from_get_request(endpoint_uri, *args, **kwargs)] *)
Definition get_response_from_get_request (endpoint_uri : URI)
    (args : list value) (kwargs : Kwargs) : M Net Response :=
  let kwargs := setdefault "timeout" (PyInt 10) kwargs in
  let* session := on_world (get_session endpoint_uri) in
  let* response := session_call session "get" endpoint_uri args kwargs in
  ret response.

(** [get_response_from_post_request(endpoint_uri, *args, **kwargs)] *)
Definition get_response_from_post_request (endpoint_uri : URI)
    (args : list value) (kwargs : Kwargs) : M Net Response :=
  let kwargs := setdefault "timeout" (PyInt 10) kwargs in
  let* session := on_world (get_session endpoint_uri) in
  let* response := session_call session "post" endpoint_uri args kwargs in
  ret response.





(** [async_get_json_from_client_response(response)] *)
Definition async_get_json_from_client_response (response : ClientResponse)
    : M Net value :=
  fun n => (json response, n).

(** * Properties *)

(** ** The monad *)

Lemma bind_ok {St A B : Type} (m : M St A) (f : A -> M St B) s a s' :
  m s = (Ok a, s') -> bind m f s = f a s'.
Proof. intros H. unfold bind. by rewrite H. Qed.

Lemma bind_raise {St A B : Type} (m : M St A) (f : A -> M St B) s e s' :
  m s = (Raise e, s') -> bind m f s = (Raise e, s').
Proof. intros H. unfold bind. by rewrite H. Qed.

(** ** Dictionaries *)
Section DictFacts.
Context {V : Type}.
Implicit Types (d : OrderedDict.t V) (k key : string) (v : V).

Lemma contains_true key d :
  OrderedDict.contains key d = true <-> key ∈ OrderedDict.keys d.
Proof. unfold OrderedDict.contains. apply bool_decide_eq_true. Qed.

Lemma contains_false key d :
  OrderedDict.contains key d = false <-> key ∉ OrderedDict.keys d.
Proof. unfold OrderedDict.contains. apply bool_decide_eq_false. Qed.

Lemma getitem_None key d :
  OrderedDict.getitem key d = None <-> key ∉ OrderedDict.keys d.
Proof.
  induction d as [|[k v] d IH]; simpl.
  - split; [intros _; apply not_elem_of_nil | done].
  - rewrite not_elem_of_cons, <- IH.
    destruct (decide (key = k)) as [->|Hne].
    + split; [done | intros [? _]; done].
    + split; [by intros | by intros [_ ?]].
Qed.

Lemma getitem_Some_in key v d :
  OrderedDict.getitem key d = Some v -> (key, v) ∈ d.
Proof.
  induction d as [|[k v'] d IH]; simpl; [done|].
  destruct (decide (key = k)) as [->|Hne]; intros Hget.
  - simplify_eq. apply list_elem_of_here.
  - apply list_elem_of_further. auto.
Qed.

Lemma getitem_setitem_eq key v d :
  OrderedDict.getitem key (OrderedDict.setitem key v d) = Some v.
Proof.
  induction d as [|[k v'] d IH]; simpl.
  - by rewrite decide_True.
  - case_decide; simpl.
    + by rewrite decide_True.
    + by rewrite decide_False.
Qed.

Lemma getitem_setitem_ne key k v d :
  k ≠ key ->
  OrderedDict.getitem k (OrderedDict.setitem key v d) = OrderedDict.getitem k d.
Proof.
  intros Hne. induction d as [|[k' v'] d IH]; simpl.
  - by rewrite decide_False.
  - case_decide; simpl.
    + subst. by rewrite !decide_False.
    + by rewrite IH.
Qed.

Lemma keys_setitem_in key v d :
  key ∈ OrderedDict.keys d ->
  OrderedDict.keys (OrderedDict.setitem key v d) = OrderedDict.keys d.
Proof.
  unfold OrderedDict.keys.
  induction d as [|[k v'] d IH]; simpl; intros Hin.
  - by apply elem_of_nil in Hin.
  - case_decide; simpl; [by subst|].
    f_equal. apply IH. apply elem_of_cons in Hin as [?|?]; [congruence | done].
Qed.

Lemma setitem_new key v d :
  key ∉ OrderedDict.keys d -> OrderedDict.setitem key v d = d ++ [(key, v)].
Proof.
  unfold OrderedDict.keys.
  induction d as [|[k v'] d IH]; simpl; intros Hin; [done|].
  apply not_elem_of_cons in Hin as [Hne Hin].
  rewrite decide_False by done. by rewrite IH.
Qed.

Lemma length_setitem_in key v d :
  key ∈ OrderedDict.keys d -> length (OrderedDict.setitem key v d) = length d.
Proof.
  intros Hin. apply (keys_setitem_in _ v) in Hin.
  apply (f_equal length) in Hin. unfold OrderedDict.keys in Hin.
  by rewrite !length_fmap in Hin.
Qed.

Lemma popitem_first_None d :
  OrderedDict.popitem_first d = None <-> d = [].
Proof. by destruct d. Qed.
End DictFacts.

(** ** SessionCache *)
Section CacheFacts.
Context {V : Type}.
Implicit Types (d data : OrderedDict.t V) (k key : string) (v value : V).
Implicit Types (c self : SessionCache.t V) (size : Z).

(** One iteration of the loop, with [popitem(last=False)] spelled out. *)
Lemma evict_loop_popitem size ev data :
  SessionCache.evict_loop size ev data =
  if bool_decide (size ≤ Z.of_nat (length data)) then
    match OrderedDict.popitem_first data with
    | None => (Raise (KeyError "dictionary is empty"), data)
    | Some ((k, v), rest) =>
        SessionCache.evict_loop size
          (Some (OrderedDict.setitem k v (default [] ev))) rest
    end
  else (Ok ev, data).
Proof. by destruct data as [|[k v] rest]. Qed.

Lemma evict_loop_below size ev data :
  Z.of_nat (length data) < size ->
  SessionCache.evict_loop size ev data = (Ok ev, data).
Proof.
  intros Hlt. rewrite evict_loop_popitem.
  rewrite bool_decide_eq_false_2; [done | lia].
Qed.

Lemma evict_loop_nonpositive size ev data :
  size ≤ 0 ->
  SessionCache.evict_loop size ev data
  = (Raise (KeyError "dictionary is empty"), []).
Proof.
  intros Hsize. revert ev.
  induction data as [|[k v] rest IH]; intros ev; simpl.
  - rewrite bool_decide_eq_true_2; [done | simpl; lia].
  - rewrite bool_decide_eq_true_2 by lia. apply IH.
Qed.

Lemma evict_loop_total size ev data :
  1 ≤ size ->
  exists ev', SessionCache.evict_loop size ev data
              = (Ok ev', drop (SessionCache.overflow size data) data).
Proof.
  intros Hsize. revert ev.
  induction data as [|[k v] rest IH]; intros ev.
  - exists ev. rewrite evict_loop_below by (simpl; lia). by rewrite drop_nil.
  - destruct (decide (size ≤ Z.of_nat (length ((k, v) :: rest)))) as [Hge|Hlt].
    + simpl. rewrite bool_decide_eq_true_2 by done.
      destruct (IH (Some (OrderedDict.setitem k v (default [] ev)))) as [ev' ->].
      exists ev'. f_equal. unfold SessionCache.overflow. simpl length in *.
      replace (Z.to_nat (Z.of_nat (S (length rest)) - size + 1))
        with (S (Z.to_nat (Z.of_nat (length rest) - size + 1))) by lia.
      done.
    + exists ev. rewrite evict_loop_below by lia.
      unfold SessionCache.overflow. by replace (Z.to_nat _) with 0%nat by lia.
Qed.

Lemma evict_loop_evicts size ev data :
  1 ≤ size ->
  size ≤ Z.of_nat (length data) ->
  NoDup (OrderedDict.keys (default [] ev ++ data)) ->
  SessionCache.evict_loop size ev data
  = (Ok (Some (default [] ev ++ take (SessionCache.overflow size data) data)),
     drop (SessionCache.overflow size data) data).
Proof.
  intros Hsize. revert ev.
  induction data as [|[k v] rest IH]; intros ev Hge Hnd.
  - simpl in Hge. lia.
  - simpl. rewrite bool_decide_eq_true_2 by done.
    assert (Hk : k ∉ OrderedDict.keys (default [] ev)).
    { unfold OrderedDict.keys in *. rewrite fmap_app in Hnd.
      apply NoDup_app in Hnd as (_ & Hdisj & _).
      intros Hin. apply (Hdisj _ Hin). simpl. apply list_elem_of_here. }
    rewrite (setitem_new _ _ _ Hk).
    assert (Hnd' : NoDup (OrderedDict.keys ((default [] ev ++ [(k, v)]) ++ rest))).
    { by rewrite <- app_assoc. }
    simpl length in Hge.
    destruct (decide (size ≤ Z.of_nat (length rest))) as [Hge'|Hlt].
    + etrans; [exact (IH (Some (default [] ev ++ [(k, v)])) Hge' Hnd')|]. simpl.
      unfold SessionCache.overflow. simpl length.
      replace (Z.to_nat (Z.of_nat (S (length rest)) - size + 1))
        with (S (Z.to_nat (Z.of_nat (length rest) - size + 1))) by lia.
      simpl. by rewrite <- app_assoc.
    + rewrite evict_loop_below by lia.
      unfold SessionCache.overflow. simpl length.
      replace (Z.to_nat (Z.of_nat (S (length rest)) - size + 1)) with 1%nat by lia.
      simpl. by rewrite take_0, drop_0.
Qed.

(** [cache] on a key that is present. *)
Lemma cache_present key value self :
  OrderedDict.contains key (SessionCache._data self) = true ->
  SessionCache.cache key value self
  = (Ok None,
     SessionCache.set_data
       (OrderedDict.setitem key value (SessionCache._data self)) self).
Proof.
  intros Hin. unfold SessionCache.cache, bind, gets, modify, ret.
  by rewrite Hin.
Qed.

(** [cache] on a new key, for a capacity of at least one. *)
Lemma cache_new key value self :
  OrderedDict.contains key (SessionCache._data self) = false ->
  1 ≤ SessionCache._size self ->
  OrderedDict.wf (SessionCache._data self) ->
  let n := SessionCache.overflow (SessionCache._size self) (SessionCache._data self) in
  SessionCache.cache key value self
  = (Ok (if bool_decide (SessionCache._size self
                         ≤ Z.of_nat (length (SessionCache._data self)))
         then Some (take n (SessionCache._data self)) else None),
     SessionCache.set_data (drop n (SessionCache._data self) ++ [(key, value)]) self).
Proof.
  intros Hnew Hsize Hwf n. destruct self as [size data]. simpl in *.
  apply contains_false in Hnew.
  assert (Hdrop : key ∉ OrderedDict.keys (drop n data)).
  { intros Hin. apply Hnew. unfold OrderedDict.keys in *.
    rewrite <- (take_drop n data), fmap_app. apply elem_of_app. by right. }
  unfold SessionCache.cache, bind, gets, modify, ret. cbn.
  rewrite (proj2 (contains_false _ _) Hnew). cbn.
  case_bool_decide as Hge.
  - rewrite (evict_loop_evicts size None data) by done. simpl.
    unfold SessionCache.set_data. simpl. by rewrite setitem_new.
  - rewrite evict_loop_below by lia. unfold SessionCache.set_data. simpl.
    subst n. unfold SessionCache.overflow in *.
    replace (Z.to_nat _) with 0%nat in * by lia.
    rewrite drop_0 in *. by rewrite setitem_new.
Qed.

(** [cache] on a new key, for a capacity below one: the loop empties the
    cache and [popitem] raises. *)
Lemma cache_new_nonpositive key value self :
  OrderedDict.contains key (SessionCache._data self) = false ->
  SessionCache._size self ≤ 0 ->
  SessionCache.cache key value self
  = (Raise (KeyError "dictionary is empty"), SessionCache.set_data [] self).
Proof.
  intros Hnew Hsize. unfold SessionCache.cache, bind, gets, modify, ret.
  rewrite Hnew. by rewrite evict_loop_nonpositive.
Qed.
(** The entries left by a sequence of [cache] calls with new, distinct
    keys on a cache within its capacity: the most recent ones, as many as
    fit. *)
Lemma cache_all_fifo (items : list (string * V)) self :
  1 ≤ SessionCache._size self ->
  Z.of_nat (length (SessionCache._data self)) ≤ SessionCache._size self ->
  NoDup (OrderedDict.keys (SessionCache._data self ++ items)) ->
  exists rs,
    SessionCache.cache_all items self
    = (Ok rs,
       SessionCache.set_data
         (drop (length (SessionCache._data self ++ items)
                - Z.to_nat (SessionCache._size self))
            (SessionCache._data self ++ items)) self).
Proof.
  revert self.
  induction items as [|[k v] rest IH]; intros [size data] Hsize Hlen Hnd;
    simpl in *.
  - exists []. unfold ret, SessionCache.set_data. simpl. do 2 f_equal.
    rewrite app_nil_r.
    replace (length data - Z.to_nat size)%nat with 0%nat by lia.
    done.
  - unfold OrderedDict.keys in Hnd. rewrite fmap_app in Hnd.
    pose proof Hnd as Hnd0.
    apply NoDup_app in Hnd as (Hwf & Hdisj & _).
    assert (Hnew : OrderedDict.contains k data = false).
    { apply contains_false. intros Hin. apply (Hdisj _ Hin). apply list_elem_of_here. }
    pose proof (cache_new k v (SessionCache.mk size data) Hnew Hsize Hwf) as Hc.
    simpl in Hc. rewrite (bind_ok _ _ _ _ _ Hc). clear Hc.
    set (n := SessionCache.overflow size data).
    assert (Hn : (n ≤ length data)%nat) by (unfold n, SessionCache.overflow; lia).
    assert (Heq : (drop n data ++ [(k, v)]) ++ rest = drop n (data ++ (k, v) :: rest)).
    { rewrite <- app_assoc. simpl. by rewrite drop_app_le. }
    destruct (IH (SessionCache.set_data (drop n data ++ [(k, v)])
                    (SessionCache.mk size data))) as [rs Hrs]; simpl.
    + done.
    + rewrite length_app, length_drop. simpl.
      unfold n, SessionCache.overflow. lia.
    + rewrite Heq. unfold OrderedDict.keys. rewrite fmap_drop, fmap_app.
      eapply sublist_NoDup; [exact Hnd0 | apply sublist_drop].
    + rewrite (bind_ok _ _ _ _ _ Hrs). eexists. unfold ret.
      f_equal. unfold SessionCache.set_data. simpl. f_equal.
      rewrite Heq, drop_drop. f_equal.
      rewrite length_drop, !length_app. simpl.
      unfold n, SessionCache.overflow. lia.
Qed.

(** C1. A sequence of [cache] calls with pairwise distinct keys, longer
    than the capacity [size >= 1] of a new cache, raises nowhere and leaves
    exactly [size] entries: the last [size] of the sequence, in insertion
    order (so for every split of the sequence into older entries and the
    [size] most recent ones, the cache holds the recent ones). *)
Theorem cache_distinct_keeps_most_recent (size : Z) (items : list (string * V)) :
  1 ≤ size ->
  NoDup (OrderedDict.keys items) ->
  size < Z.of_nat (length items) ->
  exists rs self',
    SessionCache.cache_all items (SessionCache.__init__ size) = (Ok rs, self')
    /\ SessionCache.__len__ self' = size
    /\ SessionCache._data self' = drop (length items - Z.to_nat size) items
    /\ OrderedDict.keys (SessionCache._data self')
       = drop (length items - Z.to_nat size) (OrderedDict.keys items)
    /\ forall old recent,
         items = old ++ recent -> Z.of_nat (length recent) = size ->
         SessionCache._data self' = recent.
Proof.
  intros Hsize Hnd Hlen.
  destruct (cache_all_fifo items (SessionCache.__init__ size)) as [rs Hrs];
    simpl; [done | lia | done |].
  exists rs. eexists. split; [exact Hrs|]. simpl.
  unfold SessionCache.__len__. simpl.
  split; [rewrite length_drop; lia|].
  split; [done|].
  split; [unfold OrderedDict.keys; by rewrite fmap_drop|].
  intros old recent -> Hrec. rewrite length_app.
  replace (length old + length recent - Z.to_nat size)%nat
    with (length old) by lia.
  apply drop_app_length.
Qed.

(** C2. In a new cache of capacity 2, [cache(A)], [cache(B)], [cache(C)]
    with distinct keys evict nothing in the first two calls; the third
    returns the mapping [{A: value_A}] and leaves exactly [B] and [C]. *)
Theorem cache_capacity_two_fifo (A B C : string) (vA vB vC : V) :
  A ≠ B -> A ≠ C -> B ≠ C ->
  SessionCache.cache_all [(A, vA); (B, vB); (C, vC)] (SessionCache.__init__ 2)
  = (Ok [None; None; Some [(A, vA)]], SessionCache.mk 2 [(B, vB); (C, vC)]).
Proof.
  intros HAB HAC HBC.
  assert (Hnew : forall k (d : OrderedDict.t V),
             Forall (fun kv => k ≠ kv.1) d -> OrderedDict.contains k d = false).
  { intros k d Hd. apply contains_false. unfold OrderedDict.keys.
    induction Hd; simpl; [apply not_elem_of_nil|].
    apply not_elem_of_cons. done. }
  assert (Hwf : forall (d : OrderedDict.t V),
             NoDup d.*1 -> OrderedDict.wf d) by done.
  unfold SessionCache.cache_all.
  erewrite bind_ok; cycle 1.
  { apply cache_new; simpl; [by apply Hnew | lia | apply NoDup_nil_2]. }
  erewrite bind_ok; cycle 1.
  { erewrite bind_ok; cycle 1.
    { apply cache_new; simpl.
      - apply Hnew. repeat constructor. simpl. congruence.
      - lia.
      - apply Hwf. simpl. apply NoDup_singleton. }
    erewrite bind_ok; cycle 1.
    { erewrite bind_ok; cycle 1.
      { apply cache_new; simpl.
        - apply Hnew. repeat constructor; simpl; congruence.
        - lia.
        - apply Hwf. simpl. apply NoDup_cons. split; [|apply NoDup_singleton].
          by apply not_elem_of_cons; split; [|apply not_elem_of_nil]. }
      reflexivity. }
    reflexivity. }
  reflexivity.
Qed.
(** C3. [cache] with a key that is present, whatever the size of the
    cache: it returns [None] (nothing evicted), the key takes the new
    value, and the capacity, the number of entries, the order of the keys
    (so the place of the key in the eviction order) and the values of the
    other keys stay as they were. *)
Theorem cache_existing_key_in_place key value self :
  SessionCache.__contains__ key self = true ->
  exists self',
    SessionCache.cache key value self = (Ok None, self')
    /\ SessionCache._size self' = SessionCache._size self
    /\ SessionCache.__len__ self' = SessionCache.__len__ self
    /\ OrderedDict.keys (SessionCache._data self')
       = OrderedDict.keys (SessionCache._data self)
    /\ SessionCache.get_cache_entry key self' = (Ok value, self')
    /\ forall k, k ≠ key ->
         OrderedDict.getitem k (SessionCache._data self')
         = OrderedDict.getitem k (SessionCache._data self).
Proof.
  unfold SessionCache.__contains__. intros Hin.
  eexists. split; [by apply cache_present|].
  apply contains_true in Hin. simpl.
  repeat split.
  - unfold SessionCache.__len__. simpl. by rewrite length_setitem_in.
  - by apply keys_setitem_in.
  - unfold SessionCache.get_cache_entry. simpl. by rewrite getitem_setitem_eq.
  - intros k Hne. by apply getitem_setitem_ne.
Qed.

(** Every call of [cache] that returns leaves the key with the value
    given. *)
Lemma cache_then_getitem key value self r self' :
  SessionCache.cache key value self = (Ok r, self') ->
  OrderedDict.getitem key (SessionCache._data self') = Some value.
Proof.
  unfold SessionCache.cache, bind, gets, modify, ret.
  destruct (OrderedDict.contains key (SessionCache._data self)).
  - intros [= _ <-]. simpl. apply getitem_setitem_eq.
  - destruct (SessionCache.evict_loop _ _ _) as [[ev|e] d]; [|done].
    intros [= _ <-]. simpl. apply getitem_setitem_eq.
Qed.

(** The keys that a call of [cache] evicts are not in the cache after
    it. *)
Lemma cache_evicted_absent key value self ev self' :
  OrderedDict.wf (SessionCache._data self) ->
  SessionCache.cache key value self = (Ok (Some ev), self') ->
  forall k, k ∈ OrderedDict.keys ev -> SessionCache.__contains__ k self' = false.
Proof.
  intros Hwf Hc k Hk. unfold SessionCache.__contains__.
  destruct (OrderedDict.contains key (SessionCache._data self)) eqn:Hin.
  { rewrite cache_present in Hc by done. done. }
  destruct (decide (1 ≤ SessionCache._size self)) as [Hsize|Hsize].
  - rewrite cache_new in Hc by done.
    case_bool_decide; [|done]. injection Hc as <- <-. simpl.
    set (n := SessionCache.overflow _ _) in *.
    unfold OrderedDict.wf, OrderedDict.keys in *.
    rewrite <- (take_drop n (SessionCache._data self)), fmap_app in Hwf.
    apply NoDup_app in Hwf as (_ & Hdisj & _).
    apply contains_false. unfold OrderedDict.keys.
    rewrite fmap_app. simpl. intros [Hd|Hlast%list_elem_of_singleton]%elem_of_app.
    + by apply (Hdisj k).
    + subst k. apply contains_false in Hin. apply Hin.
      unfold OrderedDict.keys.
      rewrite <- (take_drop n (SessionCache._data self)), fmap_app.
      apply elem_of_app. by left.
  - rewrite cache_new_nonpositive in Hc by (done || lia). done.
Qed.

(** C4. [get_cache_entry] after a [cache] call of the key that returned
    gives the value cached; on a key that is not in the cache (never
    cached, or evicted by a [cache] call) it raises [KeyError(key)]; and it
    never changes the cache. *)
Theorem get_cache_entry_contract key value self :
  (forall r self',
      SessionCache.cache key value self = (Ok r, self') ->
      SessionCache.get_cache_entry key self' = (Ok value, self'))
  /\ (SessionCache.__contains__ key self = false ->
      SessionCache.get_cache_entry key self = (Raise (KeyError key), self))
  /\ SessionCache.get_cache_entry (V:=V) key (SessionCache.__init__ (SessionCache._size self))
     = (Raise (KeyError key), SessionCache.__init__ (SessionCache._size self))
  /\ (forall ev self' k,
      OrderedDict.wf (SessionCache._data self) ->
      SessionCache.cache key value self = (Ok (Some ev), self') ->
      k ∈ OrderedDict.keys ev ->
      SessionCache.get_cache_entry k self' = (Raise (KeyError k), self'))
  /\ (SessionCache.get_cache_entry key self).2 = self.
Proof.
  assert (Habsent : forall k c,
             SessionCache.__contains__ k c = false ->
             SessionCache.get_cache_entry k c = (Raise (KeyError k), c)).
  { intros k c Hk. apply contains_false, getitem_None in Hk.
    unfold SessionCache.get_cache_entry. by rewrite Hk. }
  repeat split.
  - intros r self' Hc. unfold SessionCache.get_cache_entry.
    by rewrite (cache_then_getitem _ _ _ _ _ Hc).
  - apply Habsent.
  - intros ev self' k Hwf Hc Hk. apply Habsent.
    by eapply cache_evicted_absent.
  - unfold SessionCache.get_cache_entry.
    by destruct (OrderedDict.getitem key (SessionCache._data self)).
Qed.

(** C5, as the code has it: for a capacity of at least one, [cache] with a
    new key on a cache at or above its capacity pops the oldest entries, in
    order, as many as leave one entry less than the capacity (one when the
    cache is exactly full, more when it is over its capacity), returns
    them as the evicted mapping, and appends the new entry. *)
Theorem cache_new_key_evicts_oldest key value self :
  OrderedDict.wf (SessionCache._data self) ->
  SessionCache.__contains__ key self = false ->
  1 ≤ SessionCache._size self ->
  SessionCache._size self ≤ SessionCache.__len__ self ->
  exists n,
    Z.of_nat n = SessionCache.__len__ self - SessionCache._size self + 1
    /\ SessionCache.cache key value self
       = (Ok (Some (take n (SessionCache._data self))),
          SessionCache.set_data
            (drop n (SessionCache._data self) ++ [(key, value)]) self)
    /\ Z.of_nat (length (drop n (SessionCache._data self)))
       = SessionCache._size self - 1.
Proof.
  unfold SessionCache.__contains__, SessionCache.__len__.
  intros Hwf Hnew Hsize Hfull.
  exists (SessionCache.overflow (SessionCache._size self) (SessionCache._data self)).
  split; [unfold SessionCache.overflow; lia|].
  split.
  - rewrite cache_new by done. by rewrite bool_decide_eq_true_2.
  - rewrite length_drop. unfold SessionCache.overflow. lia.
Qed.

(** [cache] returns whenever the capacity is at least one. *)
Lemma cache_returns key value self :
  1 ≤ SessionCache._size self ->
  exists r self', SessionCache.cache key value self = (Ok r, self').
Proof.
  intros Hsize. unfold SessionCache.cache, bind, gets, modify, ret.
  destruct (OrderedDict.contains key (SessionCache._data self)); [by eauto|].
  destruct (evict_loop_total (SessionCache._size self) None
              (SessionCache._data self) Hsize) as [ev' ->].
  by eauto.
Qed.

(** C10. [cache] returns for every key and value on every cache whose
    capacity is at least one; with a capacity below one and a new key the
    loop empties the cache and [popitem] raises on the empty dictionary,
    as it does at once on a new cache; a [popitem] raises only there. *)
Theorem cache_total_iff_positive_size key value self :
  (1 ≤ SessionCache._size self ->
   exists r self', SessionCache.cache key value self = (Ok r, self'))
  /\ (SessionCache._size self ≤ 0 ->
      SessionCache.__contains__ key self = false ->
      SessionCache.cache key value self
      = (Raise (KeyError "dictionary is empty"), SessionCache.set_data [] self))
  /\ (SessionCache._size self ≤ 0 ->
      SessionCache.cache key value (SessionCache.__init__ (SessionCache._size self))
      = (Raise (KeyError "dictionary is empty"),
         SessionCache.__init__ (SessionCache._size self)))
  /\ (OrderedDict.popitem_first (SessionCache._data self) = None
      <-> SessionCache._data self = []).
Proof.
  split; [|split; [|split]].
  - apply cache_returns.
  - intros Hsize Hnew. by apply cache_new_nonpositive.
  - intros Hsize. by rewrite cache_new_nonpositive.
  - apply popitem_first_None.
Qed.
End CacheFacts.

(** ** The asynchronous session cache *)
Section AsyncFacts.

Lemma close_all_ok (items : OrderedDict.t Session) w :
  Forall (fun x => close_raises x = None) (OrderedDict.values items) ->
  exists w',
    close_all items w = (Ok tt, w')
    /\ only_closes w w'
    /\ closed w' = closed w ++ OrderedDict.values items.
Proof.
  revert w. induction items as [|[k x] rest IH]; intros w Hok; simpl in *.
  - exists w. unfold ret, only_closes. by rewrite app_nil_r.
  - apply Forall_cons in Hok as [Hx Hrest].
    destruct (IH (log_close x w) Hrest) as (w' & Hrun & (? & ? & ?) & Hlog).
    exists w'. unfold close, bind, modify, ret. rewrite Hx. simpl.
    split; [exact Hrun|]. split; [done|].
    rewrite Hlog. simpl. by rewrite <- app_assoc.
Qed.

Lemma close_all_raise (pre post : OrderedDict.t Session) k x e w :
  Forall (fun y => close_raises y = None) (OrderedDict.values pre) ->
  close_raises x = Some e ->
  exists w',
    close_all (pre ++ (k, x) :: post) w = (Raise e, w')
    /\ only_closes w w'
    /\ closed w' = closed w ++ OrderedDict.values pre ++ [x].
Proof.
  intros Hpre Hx. revert w.
  induction pre as [|[k' y] pre IH]; intros w; simpl in *.
  - exists (log_close x w). unfold close, bind, modify, raise.
    rewrite Hx. simpl. done.
  - apply Forall_cons in Hpre as [Hy Hpre].
    destruct (IH Hpre (log_close y w)) as (w' & Hrun & (? & ? & ?) & Hlog).
    exists w'. unfold close, bind, modify, ret. rewrite Hy. simpl.
    split; [exact Hrun|]. split; [done|].
    rewrite Hlog. simpl. by rewrite <- app_assoc.
Qed.

(** Closing sessions changes neither cache, whatever the closes do. *)
Lemma close_all_frame (items : OrderedDict.t Session) w :
  only_closes w (close_all items w).2.
Proof.
  revert w. induction items as [|[k x] rest IH]; intros w; simpl.
  - done.
  - unfold close, bind, modify, raise, ret.
    destruct (close_raises x); simpl; [done|].
    destruct (IH (log_close x w)) as (? & ? & ?). done.
Qed.

(** The cache after [cache_async_session] is the cache after the [cache]
    call in it. *)
Lemma cache_async_session_cache endpoint_uri session w :
  _async_session_cache (cache_async_session endpoint_uri session w).2
  = (SessionCache.cache (generate_cache_key endpoint_uri) session
       (_async_session_cache w)).2.
Proof.
  unfold cache_async_session, bind, on_async_session_cache.
  destruct (SessionCache.cache _ _ _) as [[[items|]|e] c']; simpl; try done.
  by destruct (close_all_frame items (set_async_session_cache c' w)) as (_ & -> & _).
Qed.
(** C6. On a new asynchronous cache of capacity 1,
    [cache_async_session(a, S1)] closes nothing and
    [cache_async_session(b, S2)], with another cache key, awaits the close
    of [S1] and of nothing else (and raises what that close raises); after
    it the key of [a] is not in the cache, the key of [b] is, and its entry
    is [S2]. *)
Theorem cache_async_session_capacity_one (a b : URI) (S1 S2 : Session) w :
  _async_session_cache w = SessionCache.__init__ 1 ->
  generate_cache_key a ≠ generate_cache_key b ->
  exists w1 r2 w2,
    cache_async_session a S1 w = (Ok tt, w1)
    /\ closed w1 = closed w
    /\ cache_async_session b S2 w1 = (r2, w2)
    /\ r2 = match close_raises S1 with Some e => Raise e | None => Ok tt end
    /\ closed w2 = closed w ++ [S1]
    /\ SessionCache.__contains__ (generate_cache_key a) (_async_session_cache w2)
       = false
    /\ SessionCache.__contains__ (generate_cache_key b) (_async_session_cache w2)
       = true
    /\ SessionCache.get_cache_entry (generate_cache_key b) (_async_session_cache w2)
       = (Ok S2, _async_session_cache w2).
Proof.
  intros Hinit Hne. destruct w as [lru c n cl]. simpl in *. subst c.
  assert (Hb : OrderedDict.contains (generate_cache_key b)
                 [(generate_cache_key a, S1)] = false).
  { apply contains_false. unfold OrderedDict.keys. simpl.
    apply not_elem_of_cons. split; [done | apply not_elem_of_nil]. }
  assert (Ha : OrderedDict.contains (generate_cache_key a)
                 [(generate_cache_key b, S2)] = false).
  { apply contains_false. unfold OrderedDict.keys. simpl.
    apply not_elem_of_cons. split; [done | apply not_elem_of_nil]. }
  assert (H1 : SessionCache.cache (generate_cache_key a) S1 (SessionCache.__init__ 1)
               = (Ok None, SessionCache.mk 1 [(generate_cache_key a, S1)]))
    by reflexivity.
  assert (H2 : SessionCache.cache (generate_cache_key b) S2
                 (SessionCache.mk 1 [(generate_cache_key a, S1)])
               = (Ok (Some [(generate_cache_key a, S1)]),
                  SessionCache.mk 1 [(generate_cache_key b, S2)])).
  { rewrite cache_new; [reflexivity | exact Hb | simpl; lia |].
    apply NoDup_singleton. }
  exists (mkWorld lru (SessionCache.mk 1 [(generate_cache_key a, S1)]) n cl).
  exists (match close_raises S1 with Some e => Raise e | None => Ok tt end).
  exists (mkWorld lru (SessionCache.mk 1 [(generate_cache_key b, S2)]) n (cl ++ [S1])).
  split.
  { unfold cache_async_session, on_async_session_cache, bind.
    cbn [_async_session_cache]. by rewrite H1. }
  split; [reflexivity|]. split.
  { unfold cache_async_session, on_async_session_cache, bind.
    cbn [_async_session_cache]. rewrite H2. simpl. unfold close, bind, modify, raise, ret. simpl.
    by destruct (close_raises S1). }
  simpl. unfold SessionCache.__contains__, SessionCache.get_cache_entry. simpl.
  rewrite Ha, decide_True by done.
  repeat split. apply contains_true. unfold OrderedDict.keys. simpl.
  apply list_elem_of_here.
Qed.

(** C7. The cache that [cache_async_session] leaves is the cache that the
    [cache] call in it leaves, whatever the closes do. When the close of an
    evicted session raises (the first one that does, in eviction order),
    the exception leaves [cache_async_session], and at that point the new
    entry is in the cache and no evicted key is. *)
Theorem cache_async_session_close_raises
    (endpoint_uri : URI) (session : Session) w
    (ev pre post : OrderedDict.t Session) self' k x e :
  OrderedDict.wf (SessionCache._data (_async_session_cache w)) ->
  SessionCache.cache (generate_cache_key endpoint_uri) session
    (_async_session_cache w) = (Ok (Some ev), self') ->
  ev = pre ++ (k, x) :: post ->
  Forall (fun y => close_raises y = None) (OrderedDict.values pre) ->
  close_raises x = Some e ->
  exists w',
    cache_async_session endpoint_uri session w = (Raise e, w')
    /\ _async_session_cache w' = self'
    /\ closed w' = closed w ++ OrderedDict.values pre ++ [x]
    /\ SessionCache.get_cache_entry (generate_cache_key endpoint_uri) self'
       = (Ok session, self')
    /\ forall k', k' ∈ OrderedDict.keys ev ->
                 SessionCache.__contains__ k' self' = false.
Proof.
  intros Hwf Hc -> Hpre Hx.
  destruct (close_all_raise pre post k x e
              (set_async_session_cache self' w) Hpre Hx)
    as (w' & Hrun & (_ & Hcache & _) & Hlog).
  exists w'. split.
  { unfold cache_async_session, bind, on_async_session_cache.
    rewrite Hc. exact Hrun. }
  split; [done|]. split; [done|]. split.
  - unfold SessionCache.get_cache_entry.
    by rewrite (cache_then_getitem _ _ _ _ _ Hc).
  - by eapply cache_evicted_absent.
Qed.
End AsyncFacts.

(** ** Provisioning a session twice *)
Section ProvisionFacts.
Implicit Types (l rest : list (string * Session)) (k key : string) (w : World).

Lemma getitem_is_Some {V : Type} key (d : OrderedDict.t V) :
  key ∈ OrderedDict.keys d -> exists v, OrderedDict.getitem key d = Some v.
Proof.
  intros Hin. destruct (OrderedDict.getitem key d) as [v|] eqn:Hget; [by eauto|].
  by apply getitem_None in Hget.
Qed.

Lemma getitem_contains {V : Type} key (v : V) (d : OrderedDict.t V) :
  OrderedDict.getitem key d = Some v -> OrderedDict.contains key d = true.
Proof.
  intros Hget. apply contains_true.
  destruct (decide (key ∈ OrderedDict.keys d)) as [|Hno]; [done|].
  apply getitem_None in Hno. congruence.
Qed.

Lemma remove_absent key l : key ∉ (LRU.remove key l).*1.
Proof.
  unfold LRU.remove. intros ([k v] & -> & Hin)%list_elem_of_fmap.
  apply list_elem_of_filter in Hin as [Hne _]. done.
Qed.

Lemma remove_id key l : key ∉ l.*1 -> LRU.remove key l = l.
Proof.
  unfold LRU.remove. induction l as [|[k v] l IH]; simpl; [done|].
  intros [Hne Hin]%not_elem_of_cons.
  rewrite filter_cons_True by (simpl; congruence). by rewrite IH.
Qed.

Lemma removelast_absent key l : key ∉ l.*1 -> key ∉ (removelast l).*1.
Proof.
  induction l as [|[k v] l IH]; simpl; [done|].
  intros [Hne Hin]%not_elem_of_cons.
  destruct l as [|kv l]; [apply not_elem_of_nil|].
  change (key ∉ k :: (removelast (kv :: l)).*1).
  apply not_elem_of_cons. split; [done | by apply IH].
Qed.

(** After a write of [key], the key is the most recent entry. *)
Lemma lru_setitem_head key (value : Session) (self : LRU.t Session) :
  exists dropped rest,
    LRU.__setitem__ key value self
    = (Ok dropped, LRU.set_items ((key, value) :: rest) self)
    /\ (key ∉ rest.*1).
Proof.
  unfold LRU.__setitem__, LRU.__contains__.
  case_bool_decide as Hin.
  - eexists _, _. split; [done | apply remove_absent].
  - case_bool_decide.
    + eexists _, _. split; [done | by apply removelast_absent].
    + eexists _, _. split; [done | done].
Qed.

(** Reading the most recent key changes nothing. *)
Lemma lru_getitem_head key (value : Session) size rest :
  key ∉ rest.*1 ->
  LRU.__contains__ key (LRU.mk size ((key, value) :: rest)) = true
  /\ LRU.__getitem__ key (LRU.mk size ((key, value) :: rest))
     = (Ok value, LRU.mk size ((key, value) :: rest)).
Proof.
  intros Hrest. split.
  - unfold LRU.__contains__. apply bool_decide_eq_true. simpl.
    apply list_elem_of_here.
  - unfold LRU.__getitem__, LRU.set_items. simpl.
    rewrite decide_True by done. do 3 f_equal.
    unfold LRU.remove. rewrite filter_cons_False by (simpl; by intros ?).
    by apply remove_id.
Qed.

Lemma get_session_hit endpoint_uri (value : Session) size rest async n cl :
  generate_cache_key endpoint_uri ∉ rest.*1 ->
  let w := mkWorld (LRU.mk size ((generate_cache_key endpoint_uri, value) :: rest))
             async n cl in
  get_session endpoint_uri w = (Ok value, w).
Proof.
  intros Hrest w.
  destruct (lru_getitem_head _ value size rest Hrest) as [Hin Hget].
  unfold get_session, bind, gets, ret, on_session_cache. subst w.
  cbn [_session_cache]. rewrite Hin. cbv beta iota.
  cbn [_session_cache]. rewrite Hget. done.
Qed.

Lemma get_async_session_hit endpoint_uri (value : Session) w :
  OrderedDict.getitem (generate_cache_key endpoint_uri)
    (SessionCache._data (_async_session_cache w)) = Some value ->
  get_async_session endpoint_uri w = (Ok value, w).
Proof.
  intros Hget.
  unfold get_async_session, bind, gets, ret, on_async_session_cache,
    SessionCache.__contains__, SessionCache.get_cache_entry.
  rewrite (getitem_contains _ _ _ Hget), Hget. by destruct w.
Qed.

(** [get_session] always returns, and leaves its key the most recent
    entry of [_session_cache], with the session returned. *)
Lemma get_session_first endpoint_uri w :
  exists session rest n' cl',
    get_session endpoint_uri w
    = (Ok session,
       mkWorld (LRU.mk (LRU.size (_session_cache w))
                  ((generate_cache_key endpoint_uri, session) :: rest))
         (_async_session_cache w) n' cl')
    /\ (generate_cache_key endpoint_uri ∉ rest.*1)
    /\ (n' ≤ S (constructed w))%nat.
Proof.
  destruct w as [[size l] async n cl].
  set (key := generate_cache_key endpoint_uri).
  unfold get_session, bind, gets, on_session_cache. cbn [_session_cache].
  fold key.
  destruct (LRU.__contains__ key (LRU.mk size l)) eqn:Hin.
  - unfold LRU.__contains__ in Hin. apply bool_decide_eq_true in Hin.
    destruct (getitem_is_Some key l Hin) as [v Hv].
    exists v, (LRU.remove key l), n, cl.
    split; [|split; [apply remove_absent | simpl; lia]].
    unfold ret, LRU.__getitem__. cbn. by rewrite Hv.
  - destruct (lru_setitem_head key n (LRU.mk size l))
      as (dropped & rest & Hset & Hrest).
    destruct (lru_getitem_head key n size rest Hrest) as [_ Hget].
    unfold new_session, session_cache_setitem, bind, on_session_cache.
    cbn [_session_cache _async_session_cache constructed closed]. rewrite Hset.
    unfold LRU.set_items. cbn [LRU.size LRU.items].
    destruct dropped as [[k' s']|].
    + exists n, rest, (S n), (cl ++ [s']).
      split; [|split; [done | simpl; lia]].
      unfold _remove_session, modify, set_session_cache, log_close.
      cbn. cbn in Hget. by rewrite Hget.
    + exists n, rest, (S n), cl.
      split; [|split; [done | simpl; lia]].
      unfold ret, set_session_cache. cbn. cbn in Hget. by rewrite Hget.
Qed.

(** [get_async_session] on a cache of capacity at least one leaves its
    key in the cache; it returns the session at the key unless the close of
    an evicted session raised. *)
Lemma get_async_session_first endpoint_uri w :
  1 ≤ SessionCache._size (_async_session_cache w) ->
  exists r session w',
    get_async_session endpoint_uri w = (r, w')
    /\ OrderedDict.getitem (generate_cache_key endpoint_uri)
         (SessionCache._data (_async_session_cache w')) = Some session
    /\ (constructed w' ≤ S (constructed w))%nat
    /\ (forall s1, r = Ok s1 -> s1 = session)
    /\ ((forall ev self',
           SessionCache.cache (generate_cache_key endpoint_uri) (constructed w)
             (_async_session_cache w) = (Ok (Some ev), self') ->
           Forall (fun x => close_raises x = None) (OrderedDict.values ev)) ->
        r = Ok session).
Proof.
  intros Hsize.
  set (key := generate_cache_key endpoint_uri).
  destruct (SessionCache.__contains__ key (_async_session_cache w)) eqn:Hin.
  - unfold SessionCache.__contains__ in Hin. apply contains_true in Hin.
    destruct (getitem_is_Some key _ Hin) as [v Hv].
    exists (Ok v), v, w. rewrite (get_async_session_hit _ v) by done.
    split; [done|]. split; [done|]. split; [lia|]. split; [congruence | done].
  - destruct w as [lru c n cl]. cbn [_async_session_cache constructed] in *.
    destruct (cache_returns key n c Hsize) as (ev & c' & Hc).
    pose proof (cache_then_getitem _ _ _ _ _ Hc) as Hget.
    unfold get_async_session, cache_async_session, bind, gets, new_session,
      on_async_session_cache.
    cbn [_async_session_cache constructed _session_cache closed].
    fold key. rewrite Hin. unfold Session in *.
    do 2 (cbv beta iota;
          cbn [_async_session_cache constructed _session_cache closed]).
    rewrite Hc. cbv beta iota.
    destruct ev as [items|].
    + pose proof (close_all_frame items
                    (set_async_session_cache c' (mkWorld lru c (S n) cl)))
        as (Hlru & Hasync & Hn).
      destruct (close_all items _) as [[[]|e] w'] eqn:Hclose;
        cbn [snd] in Hlru, Hasync, Hn; cbn in Hasync, Hn.
      * exists (Ok n), n, w'.
        unfold SessionCache.get_cache_entry. rewrite Hasync, Hget.
        split; [by destruct w'; cbn in *; subst|].
        split; [done|]. split; [lia|]. split; [congruence | done].
      * exists (Raise e), n, w'. rewrite Hasync.
        split; [done|]. split; [done|]. split; [lia|].
        split; [done|]. intros Hok.
        destruct (close_all_ok items
                    (set_async_session_cache c' (mkWorld lru c (S n) cl))
                    (Hok _ _ eq_refl)) as (w'' & Hrun & _).
        congruence.
    + exists (Ok n), n, (mkWorld lru c' (S n) cl).
      unfold ret, SessionCache.get_cache_entry. cbn. rewrite Hget.
      split; [done|]. split; [done|]. split; [lia|]. split; [congruence | done].
Qed.




End ProvisionFacts.

(** ** Invariants of the cache *)
Section CacheInvariants.
Context {V : Type}.
Implicit Types (d data : OrderedDict.t V) (k key : string) (v value : V).
Implicit Types (self : SessionCache.t V).

Lemma getitem_app key d1 d2 :
  OrderedDict.getitem key (d1 ++ d2)
  = match OrderedDict.getitem key d1 with
    | Some v => Some v
    | None => OrderedDict.getitem key d2
    end.
Proof.
  induction d1 as [|[k v] d1 IH]; simpl; [done|].
  by destruct (decide (key = k)).
Qed.

Lemma keys_app d1 d2 :
  OrderedDict.keys (d1 ++ d2) = OrderedDict.keys d1 ++ OrderedDict.keys d2.
Proof. unfold OrderedDict.keys. apply fmap_app. Qed.

(** The state that [cache] leaves, by cases. *)
Lemma cache_data key value self :
  (SessionCache.cache key value self).2
  = if OrderedDict.contains key (SessionCache._data self) then
      SessionCache.set_data
        (OrderedDict.setitem key value (SessionCache._data self)) self
    else if bool_decide (1 ≤ SessionCache._size self) then
      SessionCache.set_data
        (drop (SessionCache.overflow (SessionCache._size self)
                 (SessionCache._data self)) (SessionCache._data self)
         ++ [(key, value)]) self
    else SessionCache.set_data [] self.
Proof.
  destruct (OrderedDict.contains key (SessionCache._data self)) eqn:Hin.
  - by rewrite cache_present.
  - case_bool_decide as Hsize.
    + destruct (evict_loop_total (SessionCache._size self) None
                  (SessionCache._data self) Hsize) as [ev Hev].
      unfold SessionCache.cache, bind, gets, modify, ret.
      rewrite Hin, Hev. simpl. unfold SessionCache.set_data. simpl.
      f_equal. apply setitem_new. apply contains_false in Hin.
      intros Hk. apply Hin. unfold OrderedDict.keys in *.
      rewrite <- (take_drop (SessionCache.overflow (SessionCache._size self)
                              (SessionCache._data self))
                   (SessionCache._data self)), fmap_app.
      apply elem_of_app. by right.
    + rewrite cache_new_nonpositive by (done || lia). done.
Qed.

Lemma wf_after_eviction key value data (n : nat) :
  OrderedDict.wf data ->
  key ∉ OrderedDict.keys data ->
  OrderedDict.wf (drop n data ++ [(key, value)]).
Proof.
  intros Hwf Hin. unfold OrderedDict.wf in *. rewrite keys_app. simpl.
  apply NoDup_app. split; [|split].
  - unfold OrderedDict.keys in *. rewrite fmap_drop.
    eapply sublist_NoDup; [exact Hwf | apply sublist_drop].
  - intros k Hk ->%list_elem_of_singleton. apply Hin.
    unfold OrderedDict.keys in *.
    rewrite <- (take_drop n data), fmap_app. apply elem_of_app. by right.
  - apply NoDup_singleton.
Qed.

(** X1. [cache] keeps the keys of the cache distinct, whatever the key,
    the value and the capacity, and whether it returns or raises. *)
Theorem cache_preserves_wf key value self :
  OrderedDict.wf (SessionCache._data self) ->
  OrderedDict.wf (SessionCache._data (SessionCache.cache key value self).2).
Proof.
  intros Hwf. rewrite cache_data.
  destruct (OrderedDict.contains key (SessionCache._data self)) eqn:Hin.
  - simpl. unfold OrderedDict.wf. rewrite keys_setitem_in; [done|].
    by apply contains_true.
  - apply contains_false in Hin. case_bool_decide; simpl; [|apply NoDup_nil_2].
    by apply wf_after_eviction.
Qed.

(** The invariant over one call. *)
Lemma within_capacity_step key value self :
  within_capacity self ->
  SessionCache._size (SessionCache.cache key value self).2 = SessionCache._size self
  /\ within_capacity (SessionCache.cache key value self).2.
Proof.
  intros (Hsize & Hlen & Hwf). rewrite cache_data.
  unfold within_capacity, SessionCache.__len__ in *.
  destruct (OrderedDict.contains key (SessionCache._data self)) eqn:Hin.
  - simpl. split; [done|]. split; [done|]. split.
    + rewrite length_setitem_in; [done | by apply contains_true].
    + unfold OrderedDict.wf. rewrite keys_setitem_in; [done | by apply contains_true].
  - rewrite bool_decide_eq_true_2 by done. simpl.
    split; [done|]. split; [done|]. split.
    + rewrite length_app, length_drop. simpl.
      unfold SessionCache.overflow. lia.
    + apply wf_after_eviction; [done | by apply contains_false].
Qed.

(** X2. A cache within its capacity stays within it: [cache] returns,
    keeps the capacity, and leaves at most as many entries as the capacity,
    with distinct keys. *)
Theorem cache_within_capacity key value self :
  within_capacity self ->
  exists ev self',
    SessionCache.cache key value self = (Ok ev, self')
    /\ SessionCache._size self' = SessionCache._size self
    /\ within_capacity self'.
Proof.
  intros Hinv.
  destruct (cache_returns key value self (proj1 Hinv)) as (ev & self' & Hc).
  destruct (within_capacity_step key value self Hinv) as [Hs Hinv'].
  rewrite Hc in Hs, Hinv'. by exists ev, self'.
Qed.


(** X4. [cache] loses no entry: when it returns, every entry that was in
    the cache under another key is either in the mapping returned, and no
    longer in the cache, or still in the cache with its value, and not in
    the mapping returned. *)
Theorem cache_conserves_entries key value self ev self' k v :
  OrderedDict.wf (SessionCache._data self) ->
  SessionCache.cache key value self = (Ok ev, self') ->
  k ≠ key ->
  OrderedDict.getitem k (SessionCache._data self) = Some v ->
  (OrderedDict.getitem k (default [] ev) = Some v
   /\ SessionCache.__contains__ k self' = false)
  \/ (OrderedDict.getitem k (default [] ev) = None
      /\ OrderedDict.getitem k (SessionCache._data self') = Some v).
Proof.
  intros Hwf Hc Hne Hget.
  destruct (OrderedDict.contains key (SessionCache._data self)) eqn:Hin.
  - rewrite cache_present in Hc by done. injection Hc as <- <-.
    right. simpl. split; [done|]. by rewrite getitem_setitem_ne.
  - destruct (decide (1 ≤ SessionCache._size self)) as [Hsize|Hsize];
      [|rewrite cache_new_nonpositive in Hc by (done || lia); done].
    rewrite cache_new in Hc by done. injection Hc as <- <-.
    set (n := SessionCache.overflow _ _) in *.
    rewrite <- (take_drop n (SessionCache._data self)), getitem_app in Hget.
    unfold OrderedDict.wf in Hwf.
    rewrite <- (take_drop n (SessionCache._data self)), keys_app in Hwf.
    apply NoDup_app in Hwf as (_ & Hdisj & _).
    case_bool_decide as Hfull.
    + simpl.
      destruct (OrderedDict.getitem k (take n (SessionCache._data self)))
        as [v'|] eqn:Htake.
      * left. split; [done|]. unfold SessionCache.__contains__. simpl.
        apply contains_false. rewrite keys_app. simpl.
        intros [Hd|Hlast%list_elem_of_singleton]%elem_of_app; [|done].
        apply (Hdisj k); [|done].
        destruct (decide (k ∈ OrderedDict.keys
                            (take n (SessionCache._data self)))) as [|Hno]; [done|].
        apply getitem_None in Hno. congruence.
      * right. split; [done|]. by rewrite getitem_app, Hget.
    + right. simpl. split; [done|].
      assert (Hn : n = 0%nat).
      { unfold n, SessionCache.overflow. lia. }
      rewrite Hn in *. rewrite take_0 in Hget. simpl in Hget.
      by rewrite getitem_app, Hget.
Qed.

(** X5. [item in self] and [get_cache_entry] agree: the key is in the
    cache exactly when [get_cache_entry] returns for it. *)
Theorem contains_iff_get_cache_entry key self :
  SessionCache.__contains__ key self = true
  <-> exists v, SessionCache.get_cache_entry key self = (Ok v, self).
Proof.
  unfold SessionCache.__contains__, SessionCache.get_cache_entry. split.
  - intros Hin%contains_true.
    destruct (getitem_is_Some key _ Hin) as [v ->]. by exists v.
  - intros [v Hget].
    destruct (OrderedDict.getitem key (SessionCache._data self)) as [v'|] eqn:Hv;
      [|done].
    by eapply getitem_contains.
Qed.

(** The invariant along a sequence of calls. *)
Lemma cache_all_within_capacity (items : list (string * V)) self :
  within_capacity self ->
  exists rs self',
    SessionCache.cache_all items self = (Ok rs, self')
    /\ SessionCache._size self' = SessionCache._size self
    /\ within_capacity self'.
Proof.
  revert self. induction items as [|[k v] rest IH]; intros self Hinv; simpl.
  - by exists [], self.
  - destruct (cache_returns k v self (proj1 Hinv)) as (ev & self1 & Hc).
    destruct (within_capacity_step k v self Hinv) as [Hs Hinv1].
    rewrite Hc in Hs, Hinv1. simpl in Hs, Hinv1.
    destruct (IH self1 Hinv1) as (rs & self' & Hrun & Hs' & Hinv').
    exists (ev :: rs), self'.
    rewrite (bind_ok _ _ _ _ _ Hc), (bind_ok _ _ _ _ _ Hrun).
    split; [done|]. split; [congruence | done].
Qed.

(** X6. Whatever sequence of [cache] calls is made on a new cache of
    capacity [size >= 1], with keys repeated or not, every call returns and
    the cache never holds more than [size] entries. *)
Theorem cache_never_exceeds_capacity (size : Z) (items : list (string * V)) :
  1 ≤ size ->
  exists rs self',
    SessionCache.cache_all items (SessionCache.__init__ size) = (Ok rs, self')
    /\ length rs = length items
    /\ SessionCache._size self' = size
    /\ SessionCache.__len__ self' ≤ size
    /\ OrderedDict.wf (SessionCache._data self').
Proof.
  intros Hsize.
  destruct (cache_all_within_capacity items (SessionCache.__init__ size))
    as (rs & self' & Hrun & Hs & (_ & Hlen & Hwf)).
  { split; [done|]. split; [unfold SessionCache.__len__; simpl; lia|].
    apply NoDup_nil_2. }
  exists rs, self'. split; [done|]. simpl in Hs. rewrite Hs in Hlen.
  split; [|done].
  clear -Hrun. revert rs self' Hrun. generalize (SessionCache.__init__ (V:=V) size).
  induction items as [|[k v] rest IH]; intros self rs self' Hrun; simpl in *.
  - by injection Hrun as <- <-.
  - unfold bind in Hrun.
    destruct (SessionCache.cache k v self) as [[r|e] s1]; [|done].
    destruct (SessionCache.cache_all rest s1) as [[rs1|e] s2] eqn:Hrest; [|done].
    injection Hrun as <- <-. simpl. f_equal. by eapply IH.
Qed.
End CacheInvariants.

(** ** Evictions and closes *)
Section CloseFacts.
Implicit Types (w : World) (session : Session) (endpoint_uri : URI).

(** The closes that [close_all] makes are closes of its entries, in
    order, up to some entry. *)
Lemma close_all_log (items : OrderedDict.t Session) w :
  exists n, closed (close_all items w).2
            = closed w ++ take n (OrderedDict.values items).
Proof.
  revert w. induction items as [|[k x] rest IH]; intros w; simpl.
  - exists 0%nat. by rewrite app_nil_r.
  - unfold close, bind, modify, raise, ret.
    destruct (close_raises x); simpl.
    + by exists 1%nat.
    + destruct (IH (log_close x w)) as [n Hn]. exists (S n).
      rewrite Hn. simpl. by rewrite <- app_assoc.
Qed.

(** X7. When no close raises, [cache_async_session] returns having
    closed exactly the sessions that [cache] evicted, in eviction order,
    and nothing else changes but the cache. *)
Theorem cache_async_session_closes_evicted endpoint_uri session w ev self' :
  SessionCache.cache (generate_cache_key endpoint_uri) session
    (_async_session_cache w) = (Ok ev, self') ->
  Forall (fun x => close_raises x = None) (OrderedDict.values (default [] ev)) ->
  exists w',
    cache_async_session endpoint_uri session w = (Ok tt, w')
    /\ _async_session_cache w' = self'
    /\ closed w' = closed w ++ OrderedDict.values (default [] ev)
    /\ _session_cache w' = _session_cache w
    /\ constructed w' = constructed w.
Proof.
  intros Hc Hok. unfold cache_async_session, bind, on_async_session_cache.
  rewrite Hc. destruct ev as [items|]; simpl in *.
  - destruct (close_all_ok items (set_async_session_cache self' w) Hok)
      as (w' & Hrun & (Hlru & Hcache & Hn) & Hlog).
    exists w'. by rewrite Hrun.
  - eexists. split; [done|]. simpl. by rewrite app_nil_r.
Qed.

(** X8. [cache_async_session] for a key that is in the cache puts the
    new session in the place of the old one and closes nothing: the
    session replaced is left open. *)
Theorem cache_async_session_replaces_unclosed endpoint_uri session w :
  SessionCache.__contains__ (generate_cache_key endpoint_uri)
    (_async_session_cache w) = true ->
  exists w',
    cache_async_session endpoint_uri session w = (Ok tt, w')
    /\ closed w' = closed w
    /\ SessionCache.get_cache_entry (generate_cache_key endpoint_uri)
         (_async_session_cache w') = (Ok session, _async_session_cache w')
    /\ OrderedDict.keys (SessionCache._data (_async_session_cache w'))
       = OrderedDict.keys (SessionCache._data (_async_session_cache w)).
Proof.
  unfold SessionCache.__contains__. intros Hin.
  unfold cache_async_session, bind, on_async_session_cache.
  rewrite cache_present by done. eexists. split; [done|]. simpl.
  split; [done|]. split.
  - unfold SessionCache.get_cache_entry. simpl. by rewrite getitem_setitem_eq.
  - apply keys_setitem_in. by apply contains_true.
Qed.

(** X9. [cache_async_session] never closes a session that it leaves in
    the cache: when every cached session is cached under one key only and
    the session given is not yet cached, the sessions that the call closes
    are not in the cache after it, however the call ends. *)
Theorem cache_async_session_closes_no_cached endpoint_uri session w :
  OrderedDict.wf (SessionCache._data (_async_session_cache w)) ->
  NoDup (OrderedDict.values (SessionCache._data (_async_session_cache w))) ->
  session ∉ OrderedDict.values (SessionCache._data (_async_session_cache w)) ->
  exists l,
    closed (cache_async_session endpoint_uri session w).2 = closed w ++ l
    /\ forall x, x ∈ l ->
         x ∉ OrderedDict.values
               (SessionCache._data
                  (_async_session_cache
                     (cache_async_session endpoint_uri session w).2)).
Proof.
  intros Hwf Hnd Hnew. rewrite cache_async_session_cache.
  set (key := generate_cache_key endpoint_uri).
  set (c := _async_session_cache w) in *.
  unfold cache_async_session, bind, on_async_session_cache. fold key c.
  destruct (OrderedDict.contains key (SessionCache._data c)) eqn:Hin.
  { rewrite cache_present by done. simpl. exists []. split.
    - by rewrite app_nil_r.
    - intros x Hx. by apply elem_of_nil in Hx. }
  destruct (decide (1 ≤ SessionCache._size c)) as [Hsize|Hsize]; cycle 1.
  { rewrite cache_new_nonpositive by (done || lia). simpl. exists []. split.
    - by rewrite app_nil_r.
    - intros x Hx. by apply elem_of_nil in Hx. }
  rewrite cache_new by done. set (n := SessionCache.overflow _ _).
  case_bool_decide; simpl; cycle 1.
  { exists []. split.
    - by rewrite app_nil_r.
    - intros x Hx. by apply elem_of_nil in Hx. }
  destruct (close_all_log (take n (SessionCache._data c))
              (set_async_session_cache
                 (SessionCache.set_data
                    (drop n (SessionCache._data c) ++ [(key, session)]) c) w))
    as [m Hm].
  exists (take m (OrderedDict.values (take n (SessionCache._data c)))).
  split; [exact Hm|].
  intros x Hx%subseteq_take Hres.
  unfold OrderedDict.values in *.
  rewrite fmap_app in Hres. simpl in Hres.
  rewrite <- (take_drop n (SessionCache._data c)), fmap_app in Hnd, Hnew.
  apply NoDup_app in Hnd as (_ & Hdisj & _).
  apply elem_of_app in Hres as [Hd|Hlast%list_elem_of_singleton].
  - by apply (Hdisj x).
  - subst x. apply Hnew. apply elem_of_app. by left.
Qed.

(** X10. With a capacity below one, [get_async_session] for an
    endpoint that is not cached constructs a session and raises the
    [KeyError] of [popitem]: the new session is not cached, the sessions
    that were cached are dropped from the cache, and none of them is
    closed. *)
Theorem get_async_session_nonpositive_capacity endpoint_uri w :
  SessionCache._size (_async_session_cache w) ≤ 0 ->
  SessionCache.__contains__ (generate_cache_key endpoint_uri)
    (_async_session_cache w) = false ->
  exists w',
    get_async_session endpoint_uri w
    = (Raise (KeyError "dictionary is empty"), w')
    /\ SessionCache._data (_async_session_cache w') = []
    /\ closed w' = closed w
    /\ constructed w' = S (constructed w).
Proof.
  intros Hsize Hnew. destruct w as [lru c n cl].
  unfold get_async_session, cache_async_session, bind, gets, new_session,
    on_async_session_cache.
  cbn [_async_session_cache constructed _session_cache closed] in *.
  rewrite Hnew.
  do 2 (cbv beta iota;
        cbn [_async_session_cache constructed _session_cache closed]).
  unfold SessionCache.__contains__ in Hnew. unfold Session in *.
  rewrite cache_new_nonpositive by done. eexists. split; [done|]. done.
Qed.

Lemma get_cache_entry_frame key w :
  _async_session_cache
    (on_async_session_cache (SessionCache.get_cache_entry key) w).2
  = _async_session_cache w.
Proof.
  unfold on_async_session_cache, SessionCache.get_cache_entry.
  by destruct (OrderedDict.getitem key _).
Qed.

(** The cache after [get_async_session]. *)
Lemma get_async_session_cache endpoint_uri w :
  _async_session_cache (get_async_session endpoint_uri w).2
  = if SessionCache.__contains__ (generate_cache_key endpoint_uri)
         (_async_session_cache w)
    then _async_session_cache w
    else (SessionCache.cache (generate_cache_key endpoint_uri) (constructed w)
            (_async_session_cache w)).2.
Proof.
  set (key := generate_cache_key endpoint_uri).
  destruct (SessionCache.__contains__ key (_async_session_cache w)) eqn:Hin.
  - unfold SessionCache.__contains__ in Hin. apply contains_true in Hin.
    destruct (getitem_is_Some key _ Hin) as [v Hv].
    by rewrite (get_async_session_hit _ v).
  - destruct w as [lru c n cl].
    pose proof (cache_async_session_cache endpoint_uri n (mkWorld lru c (S n) cl))
      as Hcache.
    unfold get_async_session, bind, gets, new_session.
    cbn [_async_session_cache constructed _session_cache closed] in *.
    fold key in Hcache |- *. rewrite Hin. cbv beta iota.
    cbn [_async_session_cache constructed _session_cache closed].
    unfold Session in *.
    destruct (cache_async_session endpoint_uri n (mkWorld lru c (S n) cl))
      as [[[]|e] w'] eqn:Hrun; cbn [snd] in *; [|done].
    by rewrite get_cache_entry_frame.
Qed.

(** X11. However many sessions are asked for, and whatever the closes
    do, the asynchronous cache of the module never holds more than its
    capacity: from a cache within its capacity, in particular from the new
    module with its capacity of 20, every sequence of [get_async_session]
    calls leaves a cache with the same capacity, within it. *)
Theorem get_async_sessions_within_capacity (endpoints : list URI) w :
  within_capacity (_async_session_cache w) ->
  SessionCache._size (_async_session_cache (get_async_sessions endpoints w))
  = SessionCache._size (_async_session_cache w)
  /\ within_capacity (_async_session_cache (get_async_sessions endpoints w)).
Proof.
  revert w. induction endpoints as [|e rest IH]; intros w Hinv; simpl; [done|].
  assert (Hstep :
    SessionCache._size (_async_session_cache (get_async_session e w).2)
    = SessionCache._size (_async_session_cache w)
    /\ within_capacity (_async_session_cache (get_async_session e w).2)).
  { rewrite get_async_session_cache.
    destruct (SessionCache.__contains__ _ _); [done|].
    apply (within_capacity_step (generate_cache_key e) (constructed w)
             (_async_session_cache w) Hinv). }
  destruct Hstep as [Hs Hinv'].
  destruct (IH _ Hinv') as [Hs' Hinv'']. split; [congruence | done].
Qed.
End CloseFacts.

(** ** The request helpers *)
Section HelperFacts.
Implicit Types (n : Net) (kwargs kw : gmap string value) (args : list value).

Lemma setdefault_lookup key dflt kwargs :
  setdefault key dflt kwargs !! key = Some (default dflt (kwargs !! key)).
Proof.
  unfold setdefault. destruct (kwargs !! key) as [v|] eqn:Hk; simpl.
  - done.
  - by rewrite lookup_insert_eq.
Qed.

Lemma setdefault_lookup_ne key dflt kwargs k :
  k ≠ key -> setdefault key dflt kwargs !! k = kwargs !! k.
Proof.
  intros Hne. unfold setdefault. destruct (kwargs !! key); [done|].
  by rewrite lookup_insert_ne.
Qed.

(** X12. [cache_session] and [get_session] round trip: after
    [cache_session(endpoint_uri, session)], [get_session(endpoint_uri)]
    returns that session and constructs none. *)
Theorem cache_session_then_get_session endpoint_uri (session : Session) w :
  exists w1,
    cache_session endpoint_uri session w = (Ok tt, w1)
    /\ get_session endpoint_uri w1 = (Ok session, w1)
    /\ constructed w1 = constructed w.
Proof.
  destruct w as [[size l] async m cl].
  destruct (lru_setitem_head (generate_cache_key endpoint_uri) session
              (LRU.mk size l)) as (dropped & rest & Hset & Hrest).
  unfold cache_session, session_cache_setitem, bind, on_session_cache.
  cbn [_session_cache]. rewrite Hset.
  unfold LRU.set_items, set_session_cache.
  cbn [LRU.size LRU.items _session_cache _async_session_cache constructed closed].
  destruct dropped as [[k' s']|].
  - unfold _remove_session, modify, log_close.
    cbn [_session_cache _async_session_cache constructed closed].
    eexists. split; [done|]. split; [by apply get_session_hit | done].
  - unfold ret. eexists. split; [done|].
    split; [by apply get_session_hit | done].
Qed.

(** The two synchronous helpers but for the method. *)
Lemma session_helper_run method endpoint_uri args kw n :
  exists session w',
    get_session endpoint_uri (world n) = (Ok session, w')
    /\ (let* session := on_world (get_session endpoint_uri) in
        let* response := session_call session method endpoint_uri args kw in
        ret response) n
       = (http (calls n) (mkCall session method endpoint_uri args kw),
          mkNet w' (calls n ++ [mkCall session method endpoint_uri args kw])).
Proof.
  destruct (get_session_first endpoint_uri (world n))
    as (session & rest & m' & cl' & Hfirst & _).
  eexists _, _. split; [exact Hfirst|].
  unfold bind, on_world. rewrite Hfirst. unfold session_call, ret. cbn.
  by destruct (http _ _).
Qed.

(** X13. [get_response_from_get_request] and
    [get_response_from_post_request] make exactly one call, [get]
    respectively [post], on the session that [get_session] gives for the
    endpoint, with the URL and the positional arguments as given and with
    the keyword arguments as given except for [timeout]: the caller's
    timeout when there is one, 10 otherwise. They return or raise what the
    call does. *)
Theorem get_response_default_timeout endpoint_uri args kwargs n :
  exists session w' kw,
    get_session endpoint_uri (world n) = (Ok session, w')
    /\ kw !! "timeout"%string = Some (default (PyInt 10) (kwargs !! "timeout"%string))
    /\ (forall k, k ≠ "timeout"%string -> kw !! k = kwargs !! k)
    /\ get_response_from_get_request endpoint_uri args kwargs n
       = (http (calls n) (mkCall session "get" endpoint_uri args kw),
          mkNet w' (calls n ++ [mkCall session "get" endpoint_uri args kw]))
    /\ get_response_from_post_request endpoint_uri args kwargs n
       = (http (calls n) (mkCall session "post" endpoint_uri args kw),
          mkNet w' (calls n ++ [mkCall session "post" endpoint_uri args kw])).
Proof.
  set (kw := setdefault "timeout" (PyInt 10) kwargs).
  destruct (session_helper_run "get" endpoint_uri args kw n)
    as (session & w' & Hs & Hget).
  destruct (session_helper_run "post" endpoint_uri args kw n)
    as (session2 & w2 & Hs2 & Hpost).
  rewrite Hs in Hs2. injection Hs2 as <- <-.
  exists session, w', kw. split; [done|].
  split; [apply setdefault_lookup|].
  split; [intros k Hk; by apply setdefault_lookup_ne|].
  split; [exact Hget | exact Hpost].
Qed.


(** X15. Two requests in a row for the same endpoint go over the same
    session, whatever the first request returns or raises, and at most one
    session is constructed for them. *)
Theorem requests_reuse_session endpoint_uri args1 kwargs1 args2 kwargs2 n :
  exists c1 c2,
    calls (get_response_from_post_request endpoint_uri args2 kwargs2
             (get_response_from_get_request endpoint_uri args1 kwargs1 n).2).2
    = calls n ++ [c1; c2]
    /\ call_session c2 = call_session c1
    /\ (constructed
          (world (get_response_from_post_request endpoint_uri args2 kwargs2
                    (get_response_from_get_request endpoint_uri args1 kwargs1 n).2).2)
        ≤ S (constructed (world n)))%nat.
Proof.
  destruct (get_session_first endpoint_uri (world n))
    as (session & rest & m' & cl' & Hfirst & Hrest & Hm).
  set (w1 := mkWorld _ _ _ _) in Hfirst.
  assert (Hhit : get_session endpoint_uri w1 = (Ok session, w1))
    by (by apply get_session_hit).
  unfold get_response_from_post_request, get_response_from_get_request.
  destruct (session_helper_run "get" endpoint_uri args1
              (setdefault "timeout" (PyInt 10) kwargs1) n)
    as (s1 & w1' & Hs1 & Hget).
  rewrite Hfirst in Hs1. injection Hs1 as <- <-. rewrite Hget. cbn [snd].
  destruct (session_helper_run "post" endpoint_uri args2
              (setdefault "timeout" (PyInt 10) kwargs2)
              (mkNet w1 (calls n ++ [mkCall session "get" endpoint_uri args1
                                       (setdefault "timeout" (PyInt 10) kwargs1)])))
    as (s2 & w2 & Hs2 & Hpost).
  cbn [world] in Hs2. rewrite Hhit in Hs2. injection Hs2 as <- <-.
  rewrite Hpost. cbn [snd calls world].
  eexists _, _. split; [by rewrite <- app_assoc|]. split; [done|].
  subst w1. simpl. lia.
Qed.



End HelperFacts.

(** ** The default endpoint *)

(** C8. [get_default_http_endpoint] returns the value of
    [WEB3_HTTP_PROVIDER_URI] as it is when the variable is set, and
    [http://localhost:8545] when it is not. *)
Theorem get_default_http_endpoint_env (environ : Environ) (uri : string) :
  get_default_http_endpoint (<["WEB3_HTTP_PROVIDER_URI"%string := uri]> environ) = uri
  /\ get_default_http_endpoint (delete "WEB3_HTTP_PROVIDER_URI"%string environ)
     = "http://localhost:8545"%string
  /\ get_default_http_endpoint ∅ = "http://localhost:8545"%string
  /\ get_default_http_endpoint
       {["WEB3_HTTP_PROVIDER_URI"%string := "http://node.example:9000"%string]}
     = "http://node.example:9000"%string.
Proof.
  unfold get_default_http_endpoint. repeat split.
  - by rewrite lookup_insert_eq.
  - by rewrite lookup_delete_eq.
Qed.
End Request.

(** * Instances *)

(** The capacity of a cache is an [int]: with capacity 0, [cache] with a
    new key on a cache at its capacity (empty, or holding an entry) raises
    from [popitem] and the new entry is not cached. *)
Lemma cache_new_key_capacity_zero_raises :
  SessionCache.__contains__ "a" (SessionCache.__init__ (V:=nat) 0) = false
  /\ SessionCache._size (SessionCache.__init__ (V:=nat) 0)
     ≤ SessionCache.__len__ (SessionCache.__init__ (V:=nat) 0)
  /\ SessionCache.cache "a" 1%nat (SessionCache.__init__ 0)
     = (Raise (KeyError "dictionary is empty"), SessionCache.__init__ 0)
  /\ SessionCache.cache "b" 2%nat (SessionCache.mk 0 [("a"%string, 1%nat)])
     = (Raise (KeyError "dictionary is empty"), SessionCache.mk 0 [])
  /\ ~ (exists ev self',
          SessionCache.cache "a" 1%nat (SessionCache.__init__ 0) = (Ok ev, self')).
Proof.
  split; [reflexivity|]. split; [done|]. split; [reflexivity|].
  split; [reflexivity|]. intros (ev & self' & Hc). discriminate Hc.
Qed.


Lemma cache_distinct_keeps_most_recent_witness :
  exists rs self',
    SessionCache.cache_all [("a", 1); ("b", 2); ("c", 3)]%string
      (SessionCache.__init__ 2) = (Ok rs, self')
    /\ SessionCache.__len__ self' = 2
    /\ SessionCache._data self' = [("b", 2); ("c", 3)]%string
    /\ OrderedDict.keys (SessionCache._data self') = ["b"; "c"]%string.
Proof.
  destruct (cache_distinct_keeps_most_recent 2 [("a", 1); ("b", 2); ("c", 3)]%string)
    as (rs & self' & Hrun & Hlen & Hdata & Hkeys & _).
  - lia.
  - unfold OrderedDict.keys. simpl. apply (bool_decide_unpack _). vm_compute. exact I.
  - simpl. lia.
  - exists rs, self'. repeat split; assumption.
Defined.

Lemma cache_capacity_two_fifo_witness :
  SessionCache.cache_all [("A", 1); ("B", 2); ("C", 3)]%string (SessionCache.__init__ 2)
  = (Ok [None; None; Some [("A", 1)]]%string,
     SessionCache.mk 2 [("B", 2); ("C", 3)]%string).
Proof.
  apply (cache_capacity_two_fifo "A" "B" "C" 1 2 3); discriminate.
Defined.

Lemma cache_existing_key_in_place_witness :
  exists self',
    SessionCache.cache "a" 9 (SessionCache.mk 1 [("a", 1); ("b", 2)]%string)
    = (Ok None, self')
    /\ OrderedDict.keys (SessionCache._data self') = ["a"; "b"]%string
    /\ SessionCache.get_cache_entry "a" self' = (Ok 9, self').
Proof.
  destruct (cache_existing_key_in_place "a" 9
              (SessionCache.mk 1 [("a", 1); ("b", 2)]%string))
    as (self' & Hrun & _ & _ & Hkeys & Hget & _).
  - reflexivity.
  - exists self'. repeat split; assumption.
Defined.

Lemma get_cache_entry_contract_witness :
  SessionCache.get_cache_entry "b" (SessionCache.mk 1 [("b", 2)]%string)
  = (Ok 2, SessionCache.mk 1 [("b", 2)]%string)
  /\ SessionCache.get_cache_entry "a" (SessionCache.mk 1 [("b", 2)]%string)
     = (Raise (KeyError "a"), SessionCache.mk 1 [("b", 2)]%string).
Proof.
  destruct (get_cache_entry_contract "b" 2 (SessionCache.mk 1 [("a", 1)]%string))
    as (Hput & _ & _ & Hevicted & _).
  split.
  - apply (Hput (Some [("a", 1)]%string)). reflexivity.
  - apply (Hevicted [("a", 1)]%string).
    + apply NoDup_singleton.
    + reflexivity.
    + apply list_elem_of_here.
Defined.

Lemma cache_new_key_evicts_oldest_witness :
  exists n,
    Z.of_nat n = 2
    /\ SessionCache.cache "d" 4
         (SessionCache.mk 2 [("a", 1); ("b", 2); ("c", 3)]%string)
       = (Ok (Some (take n [("a", 1); ("b", 2); ("c", 3)]%string)),
          SessionCache.mk 2
            (drop n [("a", 1); ("b", 2); ("c", 3)]%string ++ [("d"%string, 4)])).
Proof.
  destruct (cache_new_key_evicts_oldest "d" 4
              (SessionCache.mk 2 [("a", 1); ("b", 2); ("c", 3)]%string))
    as (n & Hn & Hrun & _).
  - apply (bool_decide_unpack _). vm_compute. exact I.
  - reflexivity.
  - simpl. lia.
  - unfold SessionCache.__len__. simpl. lia.
  - exists n. split; [exact Hn | exact Hrun].
Defined.

Lemma cache_total_iff_positive_size_witness :
  (exists r self',
      SessionCache.cache "b" 2 (SessionCache.mk 1 [("a", 1)]%string) = (Ok r, self'))
  /\ SessionCache.cache "b" 2 (SessionCache.mk (-1) [("a", 1)]%string)
     = (Raise (KeyError "dictionary is empty"), SessionCache.mk (-1) []).
Proof.
  split.
  - destruct (cache_total_iff_positive_size "b" 2
                (SessionCache.mk 1 [("a", 1)]%string)) as (Htotal & _).
    apply Htotal. simpl. lia.
  - destruct (cache_total_iff_positive_size "b" 2
                (SessionCache.mk (-1) [("a", 1)]%string)) as (_ & Hraise & _).
    apply Hraise; [simpl; lia | reflexivity].
Defined.

Lemma cache_async_session_capacity_one_witness :
  exists w1 r2 w2,
    cache_async_session (fun uri => uri)
      (fun s => if decide (s = 1%nat) then Some (SessionError "close failed") else None)
      "a" 1%nat (mkWorld (LRU.__init__ 8) (SessionCache.__init__ 1) 0 []) = (Ok tt, w1)
    /\ cache_async_session (fun uri => uri)
         (fun s => if decide (s = 1%nat) then Some (SessionError "close failed") else None)
         "b" 2%nat w1 = (r2, w2)
    /\ r2 = Raise (SessionError "close failed")
    /\ closed w2 = [1%nat]
    /\ SessionCache.__contains__ "a" (_async_session_cache w2) = false
    /\ SessionCache.__contains__ "b" (_async_session_cache w2) = true
    /\ SessionCache.get_cache_entry "b" (_async_session_cache w2)
       = (Ok 2%nat, _async_session_cache w2).
Proof.
  destruct (cache_async_session_capacity_one (fun uri => uri)
              (fun s => if decide (s = 1%nat) then Some (SessionError "close failed")
                        else None)
              "a" "b" 1%nat 2%nat
              (mkWorld (LRU.__init__ 8) (SessionCache.__init__ 1) 0 []))
    as (w1 & r2 & w2 & H1 & _ & H2 & Hr & Hlog & Ha & Hb & Hget).
  - reflexivity.
  - discriminate.
  - exists w1, r2, w2. repeat split; assumption.
Defined.

Lemma cache_async_session_close_raises_witness :
  exists w',
    cache_async_session (fun uri => uri)
      (fun s => if decide (s = 1%nat) then Some (SessionError "close failed") else None)
      "b" 2%nat
      (mkWorld (LRU.__init__ 8) (SessionCache.mk 1 [("a"%string, 1%nat)]) 0 [])
    = (Raise (SessionError "close failed"), w')
    /\ _async_session_cache w' = SessionCache.mk 1 [("b"%string, 2%nat)]
    /\ closed w' = [1%nat].
Proof.
  destruct (cache_async_session_close_raises (fun uri => uri)
              (fun s => if decide (s = 1%nat) then Some (SessionError "close failed")
                        else None)
              "b" 2%nat
              (mkWorld (LRU.__init__ 8) (SessionCache.mk 1 [("a"%string, 1%nat)]) 0 [])
              [("a"%string, 1%nat)] [] []
              (SessionCache.mk 1 [("b"%string, 2%nat)]) "a" 1%nat
              (SessionError "close failed"))
    as (w' & Hrun & Hcache & Hlog & _).
  - apply NoDup_singleton.
  - reflexivity.
  - reflexivity.
  - apply Forall_nil_2.
  - reflexivity.
  - exists w'. repeat split; assumption.
Defined.


(** ** Instances of the further properties *)

Lemma cache_preserves_wf_witness :
  OrderedDict.wf
    (SessionCache._data
       (SessionCache.cache "b" 2 (SessionCache.mk 1 [("a"%string, 1)])).2).
Proof.
  apply (cache_preserves_wf "b" 2 (SessionCache.mk 1 [("a"%string, 1)])).
  apply NoDup_singleton.
Defined.

Lemma cache_within_capacity_witness :
  exists ev self',
    SessionCache.cache "b" 2 (SessionCache.mk 1 [("a"%string, 1)]) = (Ok ev, self')
    /\ SessionCache._size self' = 1
    /\ within_capacity self'.
Proof.
  apply (cache_within_capacity "b" 2 (SessionCache.mk 1 [("a"%string, 1)])).
  split; [simpl; lia|]. split; [unfold SessionCache.__len__; simpl; lia|].
  apply NoDup_singleton.
Defined.


Lemma cache_conserves_entries_witness :
  (OrderedDict.getitem "a" [("a"%string, 1)] = Some 1
   /\ SessionCache.__contains__ "a" (SessionCache.mk 1 [("b"%string, 2)]) = false)
  \/ (OrderedDict.getitem "a" [("a"%string, 1)] = None
      /\ OrderedDict.getitem "a" [("b"%string, 2)] = Some 1).
Proof.
  apply (cache_conserves_entries "b" 2 (SessionCache.mk 1 [("a"%string, 1)])
           (Some [("a"%string, 1)]) (SessionCache.mk 1 [("b"%string, 2)]) "a" 1).
  - apply NoDup_singleton.
  - reflexivity.
  - discriminate.
  - reflexivity.
Defined.

Lemma cache_never_exceeds_capacity_witness :
  exists rs self',
    SessionCache.cache_all [("a", 1); ("a", 2); ("b", 3)]%string
      (SessionCache.__init__ 1) = (Ok rs, self')
    /\ length rs = 3%nat
    /\ SessionCache._size self' = 1
    /\ SessionCache.__len__ self' ≤ 1
    /\ OrderedDict.wf (SessionCache._data self').
Proof.
  apply (cache_never_exceeds_capacity 1 [("a", 1); ("a", 2); ("b", 3)]%string).
  lia.
Defined.

Lemma cache_async_session_closes_evicted_witness :
  exists w',
    cache_async_session (fun uri => uri) (fun _ => None) "b" 2%nat
      (mkWorld (LRU.__init__ 8) (SessionCache.mk 1 [("a"%string, 1%nat)]) 0 [])
    = (Ok tt, w')
    /\ _async_session_cache w' = SessionCache.mk 1 [("b"%string, 2%nat)]
    /\ closed w' = [1%nat].
Proof.
  destruct (cache_async_session_closes_evicted (fun uri => uri) (fun _ => None)
              "b" 2%nat
              (mkWorld (LRU.__init__ 8) (SessionCache.mk 1 [("a"%string, 1%nat)]) 0 [])
              (Some [("a"%string, 1%nat)])
              (SessionCache.mk 1 [("b"%string, 2%nat)]))
    as (w' & Hrun & Hcache & Hlog & _).
  - reflexivity.
  - simpl. by repeat constructor.
  - exists w'. repeat split; assumption.
Defined.

Lemma cache_async_session_replaces_unclosed_witness :
  exists w',
    cache_async_session (fun uri => uri) (fun _ => None) "a" 2%nat
      (mkWorld (LRU.__init__ 8) (SessionCache.mk 1 [("a"%string, 1%nat)]) 0 [])
    = (Ok tt, w')
    /\ closed w' = []
    /\ SessionCache.get_cache_entry "a" (_async_session_cache w')
       = (Ok 2%nat, _async_session_cache w').
Proof.
  destruct (cache_async_session_replaces_unclosed (fun uri => uri) (fun _ => None)
              "a" 2%nat
              (mkWorld (LRU.__init__ 8) (SessionCache.mk 1 [("a"%string, 1%nat)]) 0 []))
    as (w' & Hrun & Hlog & Hget & _).
  - reflexivity.
  - exists w'. repeat split; assumption.
Defined.

Lemma cache_async_session_closes_no_cached_witness :
  exists l,
    closed (cache_async_session (fun uri => uri) (fun _ => None) "b" 2%nat
              (mkWorld (LRU.__init__ 8) (SessionCache.mk 1 [("a"%string, 1%nat)])
                 0 [])).2 = [] ++ l
    /\ forall x, x ∈ l ->
         x ∉ OrderedDict.values
               (SessionCache._data
                  (_async_session_cache
                     (cache_async_session (fun uri => uri) (fun _ => None) "b" 2%nat
                        (mkWorld (LRU.__init__ 8)
                           (SessionCache.mk 1 [("a"%string, 1%nat)]) 0 [])).2)).
Proof.
  apply (cache_async_session_closes_no_cached (fun uri => uri) (fun _ => None)
           "b" 2%nat
           (mkWorld (LRU.__init__ 8) (SessionCache.mk 1 [("a"%string, 1%nat)]) 0 [])).
  - apply NoDup_singleton.
  - apply NoDup_singleton.
  - simpl. intros [Heq|Hin]%elem_of_cons; [discriminate | by apply elem_of_nil in Hin].
Defined.

Lemma get_async_session_nonpositive_capacity_witness :
  exists w',
    get_async_session (fun uri => uri) (fun _ => None) "b"
      (mkWorld (LRU.__init__ 8) (SessionCache.mk 0 [("a"%string, 1%nat)]) 5 [])
    = (Raise (KeyError "dictionary is empty"), w')
    /\ SessionCache._data (_async_session_cache w') = []
    /\ closed w' = []
    /\ constructed w' = 6%nat.
Proof.
  apply (get_async_session_nonpositive_capacity (fun uri => uri) (fun _ => None) "b"
           (mkWorld (LRU.__init__ 8) (SessionCache.mk 0 [("a"%string, 1%nat)]) 5 [])).
  - simpl. lia.
  - reflexivity.
Defined.

Lemma get_async_sessions_within_capacity_witness :
  SessionCache._size
    (_async_session_cache
       (get_async_sessions (fun uri => uri) (fun _ => Some (SessionError "close"))
          ["a"; "b"; "a"]%string module_init)) = 20
  /\ within_capacity
       (_async_session_cache
          (get_async_sessions (fun uri => uri) (fun _ => Some (SessionError "close"))
             ["a"; "b"; "a"]%string module_init)).
Proof.
  apply (get_async_sessions_within_capacity (fun uri => uri)
           (fun _ => Some (SessionError "close")) ["a"; "b"; "a"]%string module_init).
  split; [simpl; lia|]. split; [unfold SessionCache.__len__; simpl; lia|].
  apply NoDup_nil_2.
Defined.



